(** * react-signature-canvas: the stroke-synthesis pipeline of [src/index.js]

    A shallow embedding of the [SignatureCanvas] component: the sliding
    window of samples, the control-point solver, the velocity filter, the
    width mapper and the rasterizer, with the canvas calls and the
    [onBegin]/[onEnd] callbacks recorded in an effect log.

    JavaScript numbers are kept behind the interface [Number], which has
    two instances:
    - [float_Number]: IEEE 754 binary64 (the kernel's primitive floats),
      that is, what the JavaScript engine computes, NaN included;
    - [R_Number]: exact real arithmetic, used for the algebraic facts
      about the width mapper.
    Every function of the component is written once, over the interface. *)

From Stdlib Require Import Floats.
From Stdlib Require Uint63.
From Stdlib Require Import List String Bool Arith ZArith Lia.
From Stdlib Require Import QArith Qreals Reals Lra.
Import ListNotations.

(* ================================================================== *)
(** ** JavaScript numbers *)
(* ================================================================== *)

(** The operations [index.js] performs on numbers.  [loop_count n] is
    the number of times the body of [for (i = 0; i < n; i++)] runs, or
    [None] when that loop never exits. *)
Class Number (F : Type) : Type := {
  num_add : F -> F -> F;
  num_sub : F -> F -> F;
  num_mul : F -> F -> F;
  num_div : F -> F -> F;
  Math_sqrt : F -> F;
  Math_floor : F -> F;
  Math_max : F -> F -> F;
  Math_PI : F;
  num_lit : Q -> F;
  num_of_nat : nat -> F;
  loop_count : F -> option nat
}.

Declare Scope js_scope.
Delimit Scope js_scope with js.
Infix "+" := num_add : js_scope.
Infix "-" := num_sub : js_scope.
Infix "*" := num_mul : js_scope.
Infix "/" := num_div : js_scope.
Notation "'#' q" := (num_lit q%Q) (at level 1, format "'#' q") : js_scope.

(* ------------------------------------------------------------------ *)
(** *** Instance 1: binary64 *)

Module Float64.

Definition of_Z (z : Z) : float :=
  match z with
  | Zneg p => PrimFloat.opp (PrimFloat.of_uint63 (Uint63.of_Z (Zpos p)))
  | _ => PrimFloat.of_uint63 (Uint63.of_Z z)
  end.

(** A decimal literal [n/d]: both are exact, the division rounds once. *)
Definition lit (q : Q) : float :=
  PrimFloat.div (of_Z (Qnum q)) (of_Z (Zpos (Qden q))).

Definition of_nat (n : nat) : float := of_Z (Z.of_nat n).

(** [Math.floor]: infinities, NaN, zeros and floats with a non-negative
    exponent are integers already. *)
Definition floor (a : float) : float :=
  match Prim2SF a with
  | S754_finite s m e =>
      if (e <? 0)%Z
      then of_Z (Z.div (if s then Zneg m else Zpos m) (2 ^ (- e)))
      else a
  | _ => a
  end.

(** [Math.max] of two arguments: NaN is contagious and [+0] wins over
    [-0]. *)
Definition max (a b : float) : float :=
  if PrimFloat.is_nan a || PrimFloat.is_nan b then PrimFloat.nan
  else if PrimFloat.ltb a b then b
  else if PrimFloat.ltb b a then a
  else if PrimFloat.get_sign a then b else a.

Definition PI : float := 0x1.921fb54442d18p+1%float.

(** Trips of [for (i = 0; i < n; i++)]: none when [n] is NaN or not
    positive; [ceil n] when that is at most [2^53]; beyond that [i++]
    stops changing [i], and for [+Infinity] the test never fails. *)
Definition count (n : float) : option nat :=
  match Prim2SF n with
  | S754_finite false m e =>
      let c := if (e <? 0)%Z
               then (- ((- Zpos m) / 2 ^ (- e)))%Z
               else (Zpos m * 2 ^ e)%Z in
      if (c <=? 2 ^ 53)%Z then Some (Z.to_nat c) else None
  | S754_infinity false => None
  | _ => Some 0%nat
  end.

End Float64.

#[export] Instance float_Number : Number float := {
  num_add := PrimFloat.add;
  num_sub := PrimFloat.sub;
  num_mul := PrimFloat.mul;
  num_div := PrimFloat.div;
  Math_sqrt := PrimFloat.sqrt;
  Math_floor := Float64.floor;
  Math_max := Float64.max;
  Math_PI := Float64.PI;
  num_lit := Float64.lit;
  num_of_nat := Float64.of_nat;
  loop_count := Float64.count
}.

(* ------------------------------------------------------------------ *)
(** *** Instance 2: exact reals *)

Module Exact.

Definition floor (a : R) : R := IZR (Int_part a).

(** The naturals below [n] are [0 .. ceil n - 1]. *)
Definition count (n : R) : option nat :=
  Some (Z.to_nat (- Int_part (- n))).

End Exact.

#[export] Instance R_Number : Number R := {
  num_add := Rplus;
  num_sub := Rminus;
  num_mul := Rmult;
  num_div := Rdiv;
  Math_sqrt := R_sqrt.sqrt;
  Math_floor := Exact.floor;
  Math_max := Rmax;
  Math_PI := PI;
  num_lit := Q2R;
  num_of_nat := INR;
  loop_count := Exact.count
}.

(* ================================================================== *)
(** ** Outcomes of a method call *)
(* ================================================================== *)

(** A method returns, throws a [TypeError] (a property read on
    [undefined]), or never returns. *)
Inductive Outcome (A : Type) : Type :=
| Returns (a : A)
| Throws
| Hangs.

Arguments Returns {A} a.
Arguments Throws {A}.
Arguments Hangs {A}.

Definition bind {A B : Type} (m : Outcome A) (k : A -> Outcome B) : Outcome B :=
  match m with
  | Returns a => k a
  | Throws => Throws
  | Hangs => Hangs
  end.

Notation "x <- m ;; k" := (bind m (fun x => k))
  (at level 61, m at next level, right associativity).

(** [a[i]]: reading a property of the result throws when it is
    [undefined]. *)
Definition item {A : Type} (a : list A) (i : nat) : Outcome A :=
  match nth_error a i with
  | Some v => Returns v
  | None => Throws
  end.

(** [for (i = 0; i < n; i++) body]. *)
Definition for_loop {F : Type} `{Number F} {S : Type}
    (n : F) (body : F -> S -> S) (s : S) : Outcome S :=
  match loop_count n with
  | Some k => Returns (fold_left (fun s i => body (num_of_nat i) s) (seq 0 k) s)
  | None => Hangs
  end.

(* ================================================================== *)
(** ** Data model *)
(* ================================================================== *)

Section Model.

Context {F : Type} `{Number F}.

Local Open Scope js_scope.

(** A sample: [new Point(x, y)] stamps the time of its creation. *)
Record Point : Type := mkPoint { x : F; y : F; time : F }.

(** The object literals [{x: .., y: ..}] of the solver. *)
Record XY : Type := mkXY { xy_x : F; xy_y : F }.

(** [new Bezier(startPoint, control1, control2, endPoint)]. *)
Record Bezier : Type := mkBezier {
  startPoint : Point;
  control1 : Point;
  control2 : Point;
  endPoint : Point
}.

(** The object [{c1: .., c2: ..}] the solver returns. *)
Record ControlPoints : Type := mkControlPoints { c1 : Point; c2 : Point }.

(** [dotSize] is a number or a function of [(minWidth, maxWidth)]. *)
Inductive DotSize : Type :=
| DotSizeNumber (size : F)
| DotSizeFunction (f : F -> F -> F).

Record Props : Type := mkProps {
  velocityFilterWeight : F;
  minWidth : F;
  maxWidth : F;
  dotSize : DotSize;
  penColor : string;
  backgroundColor : string;
  clearOnResize : bool
}.

(** The fields of a mouse event or of a touch that the component reads. *)
Record Event : Type := mkEvent { clientX : F; clientY : F }.

(** What [this._canvas.getBoundingClientRect()] answers. *)
Record Rect : Type := mkRect { left : F; top : F }.

(** What the component does to its surroundings: the calls on the 2D
    context [this._ctx] and the two callbacks of [props]. *)
Inductive Effect : Type :=
| ctx_fillStyle (color : string)
| ctx_beginPath
| ctx_moveTo (px py : F)
| ctx_arc (px py radius startAngle endAngle : F) (anticlockwise : bool)
| ctx_closePath
| ctx_fill
| props_onBegin (ev : Event)
| props_onEnd (ev : Event).

(** The component instance, [this].  [effects] is the log of effects in
    the order they happened; [curves] is a history variable, the curves
    handed to [_addCurve] so far, which no method reads. *)
Record SignatureCanvas : Type := mkSignatureCanvas {
  props : Props;
  canvasRect : Rect;
  points : list Point;
  _lastVelocity : F;
  _lastWidth : F;
  _isEmpty : bool;
  effects : list Effect;
  curves : list Bezier
}.

Definition set_points (v : list Point) (this : SignatureCanvas) : SignatureCanvas :=
  mkSignatureCanvas (props this) (canvasRect this) v (_lastVelocity this)
    (_lastWidth this) (_isEmpty this) (effects this) (curves this).

Definition set_lastVelocity (v : F) (this : SignatureCanvas) : SignatureCanvas :=
  mkSignatureCanvas (props this) (canvasRect this) (points this) v
    (_lastWidth this) (_isEmpty this) (effects this) (curves this).

Definition set_lastWidth (v : F) (this : SignatureCanvas) : SignatureCanvas :=
  mkSignatureCanvas (props this) (canvasRect this) (points this) (_lastVelocity this)
    v (_isEmpty this) (effects this) (curves this).

Definition set_isEmpty (v : bool) (this : SignatureCanvas) : SignatureCanvas :=
  mkSignatureCanvas (props this) (canvasRect this) (points this) (_lastVelocity this)
    (_lastWidth this) v (effects this) (curves this).

(** Append one effect to the log. *)
Definition perform (e : Effect) (this : SignatureCanvas) : SignatureCanvas :=
  mkSignatureCanvas (props this) (canvasRect this) (points this) (_lastVelocity this)
    (_lastWidth this) (_isEmpty this) (effects this ++ [e]) (curves this).

Definition record_curve (c : Bezier) (this : SignatureCanvas) : SignatureCanvas :=
  mkSignatureCanvas (props this) (canvasRect this) (points this) (_lastVelocity this)
    (_lastWidth this) (_isEmpty this) (effects this) (curves this ++ [c]).

(** [static defaultProps] (the two callbacks default to no-ops). *)
Definition defaultProps : Props := {|
  velocityFilterWeight := #0.7;
  minWidth := #0.5;
  maxWidth := #2.5;
  dotSize := DotSizeFunction (fun minWidth maxWidth => (minWidth + maxWidth) / #2);
  penColor := "black";
  backgroundColor := "rgba(0,0,0,0)";
  clearOnResize := true
|}.

(* ================================================================== *)
(** ** The modules [index.js] imports *)
(* ================================================================== *)

(** [point.js] and [bezier.js] are not part of the sources at hand.  The
    component calls one method of each: [end.velocityFrom(start)] and
    [curve.length()]. *)
Class Geometry : Type := {
  Point_velocityFrom : Point -> Point -> F;
  Bezier_length : Bezier -> F
}.

(** Modelled from the spec: [Point.velocityFrom] of the missing
    [point.js], "distance(a,b) / max(time(a)-time(b), 1)". *)
Definition spec_velocityFrom (this start : Point) : F :=
  Math_sqrt ((x this - x start) * (x this - x start)
             + (y this - y start) * (y this - y start))
  / Math_max (time this - time start) #1.

(** Modelled from the spec: [Bezier.length] of the missing [bezier.js],
    "any consistent estimator of the cubic's path length ... a chord
    approximation"; here the chord from the start to the end point. *)
Definition spec_length (curve : Bezier) : F :=
  Math_sqrt ((x (endPoint curve) - x (startPoint curve))
             * (x (endPoint curve) - x (startPoint curve))
             + (y (endPoint curve) - y (startPoint curve))
               * (y (endPoint curve) - y (startPoint curve))).

Definition spec_Geometry : Geometry := {|
  Point_velocityFrom := spec_velocityFrom;
  Bezier_length := spec_length
|}.

(* ================================================================== *)
(** ** The methods of [SignatureCanvas] *)
(* ================================================================== *)

Context {G : Geometry}.

(** [Date.now()] is read by [new Point]; its value during one handler is
    the argument [now] of the methods that create points. *)

Definition _reset (this : SignatureCanvas) : SignatureCanvas :=
  let this := set_points [] this in
  let this := set_lastVelocity #0 this in
  let this := set_lastWidth
                ((minWidth (props this) + maxWidth (props this)) / #2) this in
  perform (ctx_fillStyle (penColor (props this))) this.

Definition _createPoint (now : F) (ev : Event) (this : SignatureCanvas) : Point :=
  let rect := canvasRect this in
  mkPoint (clientX ev - left rect) (clientY ev - top rect) now.

Definition _calculateCurveControlPoints (now : F) (s1 s2 s3 : Point)
    : ControlPoints :=
  let dx1 := x s1 - x s2 in
  let dy1 := y s1 - y s2 in
  let dx2 := x s2 - x s3 in
  let dy2 := y s2 - y s3 in
  let m1 := mkXY ((x s1 + x s2) / #2.0) ((y s1 + y s2) / #2.0) in
  let m2 := mkXY ((x s2 + x s3) / #2.0) ((y s2 + y s3) / #2.0) in
  let l1 := Math_sqrt (dx1 * dx1 + dy1 * dy1) in
  let l2 := Math_sqrt (dx2 * dx2 + dy2 * dy2) in
  let dxm := xy_x m1 - xy_x m2 in
  let dym := xy_y m1 - xy_y m2 in
  let k := l2 / (l1 + l2) in
  let cm := mkXY (xy_x m2 + dxm * k) (xy_y m2 + dym * k) in
  let tx := x s2 - xy_x cm in
  let ty := y s2 - xy_y cm in
  {| c1 := mkPoint (xy_x m1 + tx) (xy_y m1 + ty) now;
     c2 := mkPoint (xy_x m2 + tx) (xy_y m2 + ty) now |}.

Definition _strokeWidth (velocity : F) (this : SignatureCanvas) : F :=
  Math_max (maxWidth (props this) / (velocity + #1)) (minWidth (props this)).

Definition _drawPoint (px py size : F) (this : SignatureCanvas) : SignatureCanvas :=
  let this := perform (ctx_moveTo px py) this in
  let this := perform (ctx_arc px py size #0 (#2 * Math_PI) false) this in
  set_isEmpty false this.

(** The width of the stroke at parameter [t] of a curve. *)
Definition width_at (startWidth endWidth t : F) : F :=
  let widthDelta := endWidth - startWidth in
  let tt := t * t in
  let ttt := tt * t in
  startWidth + ttt * widthDelta.

(** The body of the loop of [_drawCurve], for the counter value [i]. *)
Definition _drawCurve_step (curve : Bezier) (startWidth endWidth drawSteps : F)
    (i : F) (this : SignatureCanvas) : SignatureCanvas :=
  let widthDelta := endWidth - startWidth in
  let t := i / drawSteps in
  let tt := t * t in
  let ttt := tt * t in
  let u := #1 - t in
  let uu := u * u in
  let uuu := uu * u in
  let px := uuu * x (startPoint curve) in
  let px := px + #3 * uu * t * x (control1 curve) in
  let px := px + #3 * u * tt * x (control2 curve) in
  let px := px + ttt * x (endPoint curve) in
  let py := uuu * y (startPoint curve) in
  let py := py + #3 * uu * t * y (control1 curve) in
  let py := py + #3 * u * tt * y (control2 curve) in
  let py := py + ttt * y (endPoint curve) in
  let width := startWidth + ttt * widthDelta in
  _drawPoint px py width this.

Definition _drawCurve (curve : Bezier) (startWidth endWidth : F)
    (this : SignatureCanvas) : Outcome SignatureCanvas :=
  let drawSteps := Math_floor (Bezier_length curve) in
  let this := perform ctx_beginPath this in
  this <- for_loop drawSteps
            (_drawCurve_step curve startWidth endWidth drawSteps) this ;;
  let this := perform ctx_closePath this in
  Returns (perform ctx_fill this).

Definition _addCurve (curve : Bezier) (this : SignatureCanvas)
    : Outcome SignatureCanvas :=
  let this := record_curve curve this in
  let startPoint := startPoint curve in
  let endPoint := endPoint curve in
  let velocity := Point_velocityFrom endPoint startPoint in
  let velocity := velocityFilterWeight (props this) * velocity
                  + (#1 - velocityFilterWeight (props this)) * _lastVelocity this in
  let newWidth := _strokeWidth velocity this in
  this <- _drawCurve curve (_lastWidth this) newWidth this ;;
  let this := set_lastVelocity velocity this in
  Returns (set_lastWidth newWidth this).

Definition _addPoint (now : F) (point : Point) (this : SignatureCanvas)
    : Outcome SignatureCanvas :=
  let this := set_points (points this ++ [point]) this in
  if (2 <? List.length (points this))%nat then
    this <- (if (List.length (points this) =? 3)%nat
             then first <- item (points this) 0 ;;
                  Returns (set_points (first :: points this) this)
             else Returns this) ;;
    p0 <- item (points this) 0 ;;
    p1 <- item (points this) 1 ;;
    p2 <- item (points this) 2 ;;
    p3 <- item (points this) 3 ;;
    let tmp := _calculateCurveControlPoints now p0 p1 p2 in
    let c2 := c2 tmp in
    let tmp := _calculateCurveControlPoints now p1 p2 p3 in
    let c3 := c1 tmp in
    let curve := mkBezier p1 c2 c3 p2 in
    this <- _addCurve curve this ;;
    Returns (set_points (tl (points this)) this)
  else Returns this.

Definition _strokeUpdate (now : F) (ev : Event) (this : SignatureCanvas)
    : Outcome SignatureCanvas :=
  let point := _createPoint now ev this in
  _addPoint now point this.

Definition _strokeBegin (now : F) (ev : Event) (this : SignatureCanvas)
    : Outcome SignatureCanvas :=
  let this := _reset this in
  this <- _strokeUpdate now ev this ;;
  Returns (perform (props_onBegin ev) this).

Definition _strokeDraw (point : Point) (this : SignatureCanvas) : SignatureCanvas :=
  let dotSize := match dotSize (props this) with
                 | DotSizeFunction f => f (minWidth (props this)) (maxWidth (props this))
                 | DotSizeNumber size => size
                 end in
  let this := perform ctx_beginPath this in
  let this := _drawPoint (x point) (y point) dotSize this in
  let this := perform ctx_closePath this in
  perform ctx_fill this.

Definition _strokeEnd (ev : Event) (this : SignatureCanvas) : SignatureCanvas :=
  let canDrawCurve := (2 <? List.length (points this))%nat in
  let point := nth_error (points this) 0 in
  let this := if negb canDrawCurve
              then match point with
                   | Some point => _strokeDraw point this
                   | None => this
                   end
              else this in
  perform (props_onEnd ev) this.

(* ================================================================== *)
(** ** The stroke controller seen from the input adapter *)
(* ================================================================== *)

(** The three operations the event handlers drive. *)
Inductive Call : Type :=
| call_begin (now : F) (ev : Event)
| call_update (now : F) (ev : Event)
| call_end (ev : Event).

Definition handle (c : Call) (this : SignatureCanvas) : Outcome SignatureCanvas :=
  match c with
  | call_begin now ev => _strokeBegin now ev this
  | call_update now ev => _strokeUpdate now ev this
  | call_end ev => Returns (_strokeEnd ev this)
  end.

Fixpoint run (cs : list Call) (this : SignatureCanvas) : Outcome SignatureCanvas :=
  match cs with
  | [] => Returns this
  | c :: cs => this <- handle c this ;; run cs this
  end.

(* ================================================================== *)
(** ** Vocabulary of the statements *)
(* ================================================================== *)

(** The point of the cubic at parameter [t], with the operations in the
    order [_drawCurve] performs them. *)
Definition bezier_x (curve : Bezier) (t : F) : F :=
  let tt := t * t in
  let ttt := tt * t in
  let u := #1 - t in
  let uu := u * u in
  let uuu := uu * u in
  uuu * x (startPoint curve) + #3 * uu * t * x (control1 curve)
  + #3 * u * tt * x (control2 curve) + ttt * x (endPoint curve).

Definition bezier_y (curve : Bezier) (t : F) : F :=
  let tt := t * t in
  let ttt := tt * t in
  let u := #1 - t in
  let uu := u * u in
  let uuu := uu * u in
  uuu * y (startPoint curve) + #3 * uu * t * y (control1 curve)
  + #3 * u * tt * y (control2 curve) + ttt * y (endPoint curve).

(** One disc: the two context calls of [_drawPoint]. *)
Definition disc (px py radius : F) : list Effect :=
  [ctx_moveTo px py; ctx_arc px py radius #0 (#2 * Math_PI) false].

(** The disc stamped for the counter value [i] of a curve sampled in
    [drawSteps] steps. *)
Definition sample (curve : Bezier) (startWidth endWidth drawSteps : F) (i : nat)
    : list Effect :=
  let t := num_of_nat i / drawSteps in
  disc (bezier_x curve t) (bezier_y curve t) (width_at startWidth endWidth t).

(** One fill pass over [n] samples of a curve. *)
Definition curve_effects (curve : Bezier) (startWidth endWidth : F) (n : nat)
    : list Effect :=
  [ctx_beginPath]
  ++ flat_map (sample curve startWidth endWidth (Math_floor (Bezier_length curve)))
       (seq 0 n)
  ++ [ctx_closePath; ctx_fill].

(** The configured dot-size policy. *)
Definition dot_size (p : Props) : F :=
  match dotSize p with
  | DotSizeFunction f => f (minWidth p) (maxWidth p)
  | DotSizeNumber size => size
  end.

(** The fill pass of the fallback dot. *)
Definition dot_effects (point : Point) (size : F) : list Effect :=
  [ctx_beginPath] ++ disc (x point) (y point) size ++ [ctx_closePath; ctx_fill].

(** The curve [_addPoint] fits to four consecutive window entries. *)
Definition curve_of (now : F) (w0 w1 w2 w3 : Point) : Bezier :=
  mkBezier w1
    (c2 (_calculateCurveControlPoints now w0 w1 w2))
    (c1 (_calculateCurveControlPoints now w1 w2 w3))
    w2.

(** The smoothed velocity and the width [_addCurve] derives for a curve. *)
Definition filtered_velocity (curve : Bezier) (this : SignatureCanvas) : F :=
  velocityFilterWeight (props this)
    * Point_velocityFrom (endPoint curve) (startPoint curve)
  + (#1 - velocityFilterWeight (props this)) * _lastVelocity this.

(** [_isEmpty] after stamping [n] discs. *)
Definition isEmpty_after (n : nat) (b : bool) : bool :=
  match n with
  | O => b
  | S _ => false
  end.

(** The updates of a stroke, as calls. *)
Definition updates (ups : list (F * Event)) : list Call :=
  map (fun u => call_update (fst u) (snd u)) ups.

(** Within a stroke the window either has reached three samples, and
    then stays there, or nothing has been drawn since the begin. *)
Definition quiet_or_full (first : Point) (at_begin this : SignatureCanvas) : Prop :=
  List.length (points this) = 3%nat
  \/ ((List.length (points this) < 3)%nat
      /\ nth_error (points this) 0 = Some first
      /\ props this = props at_begin
      /\ effects this = effects at_begin
      /\ curves this = curves at_begin).

(** The blend factor [k] of the solver. *)
Definition blend_factor (s1 s2 s3 : Point) : F :=
  let dx1 := x s1 - x s2 in
  let dy1 := y s1 - y s2 in
  let dx2 := x s2 - x s3 in
  let dy2 := y s2 - y s3 in
  let l1 := Math_sqrt (dx1 * dx1 + dy1 * dy1) in
  let l2 := Math_sqrt (dx2 * dx2 + dy2 * dy2) in
  l2 / (l1 + l2).

(** A component with the default props, its canvas at the origin of the
    viewport, right after [_reset]. *)
Definition fresh : SignatureCanvas :=
  _reset (mkSignatureCanvas defaultProps (mkRect #0 #0) [] #0 #0 true [] []).

(* ------------------------------------------------------------------ *)
(** *** The specification's wording, where it differs from the code *)

(** Section 4.5 of the specification: [end] "performs a final update"
    before the dot check and the notification. *)
Definition spec_strokeEnd (now : F) (ev : Event) (this : SignatureCanvas)
    : Outcome SignatureCanvas :=
  this <- _strokeUpdate now ev this ;;
  Returns (_strokeEnd ev this).



End Model.

(* ================================================================== *)
(** ** Concrete inputs, in binary64 *)
(* ================================================================== *)

Module Run64.

Local Open Scope float_scope.

#[export] Instance G64 : Geometry (F:=float) := spec_Geometry.

Definition fresh64 : SignatureCanvas (F:=float) := fresh.

(** A pointer resting at (1, 2), sampled at time [t]. *)
Definition still (t : float) : Point := mkPoint 1 2 t.

(** A stroke of two samples: down at (0,0), one move to (3,0). *)
Definition two_samples : list Call :=
  [call_begin 0 (mkEvent 0 0); call_update 5 (mkEvent 3 0)].

(** The pointer is released at (3,4), nine time units after the begin. *)
Definition release : Event := mkEvent 3 4.

(** The window after [two_samples]. *)
Definition after_two : SignatureCanvas :=
  mkSignatureCanvas (props fresh64) (canvasRect fresh64)
    [mkPoint 0 0 0; mkPoint 3 0 5] 0 1.5 true
    (effects fresh64 ++ [ctx_fillStyle "black"; props_onBegin (mkEvent 0 0)]) [].




(** A pointer pressed at (1, 2) that reports two moves without leaving
    the place. *)
Definition resting : list Call :=
  [call_begin 0 (mkEvent 1 2); call_update 1 (mkEvent 1 2);
   call_update 2 (mkEvent 1 2)].

(** A stroke of four samples. *)
Definition four_samples : list Call :=
  [call_begin 0 (mkEvent 0 0); call_update 5 (mkEvent 3 0);
   call_update 9 (mkEvent 3 4); call_update 12 (mkEvent 0 4);
   call_end (mkEvent 0 4)].

End Run64.

(* ================================================================== *)
(** ** Vocabulary for whole strokes *)
(* ================================================================== *)

Section Strokes.

Context {F : Type} `{Number F} {G : Geometry (F:=F)}.

Local Open Scope js_scope.

(** The effects that put ink on the surface are the arcs. *)
Definition is_arc (e : Effect (F:=F)) : bool :=
  match e with
  | ctx_arc _ _ _ _ _ _ => true
  | _ => false
  end.

Definition no_arc (log : list (Effect (F:=F))) : bool :=
  forallb (fun e => negb (is_arc e)) log.

Definition is_onBegin (e : Effect (F:=F)) : bool :=
  match e with
  | props_onBegin _ => true
  | _ => false
  end.

Definition is_onEnd (e : Effect (F:=F)) : bool :=
  match e with
  | props_onEnd _ => true
  | _ => false
  end.

(** The effects that build and fill a path. *)
Definition is_drawing (e : Effect (F:=F)) : bool :=
  match e with
  | ctx_beginPath | ctx_moveTo _ _ | ctx_arc _ _ _ _ _ _
  | ctx_closePath | ctx_fill => true
  | _ => false
  end.

(** The samples of a stroke, the begin sample first; the canvas does not
    move during the stroke. *)
Definition stroke_samples (this : SignatureCanvas) (now0 : F) (ev0 : Event)
    (ups : list (F * Event)) : list Point :=
  _createPoint now0 ev0 this
  :: map (fun u => _createPoint (fst u) (snd u) this) ups.

(** The last three entries of a list, or all of it when it is shorter. *)
Definition last_three {A : Type} (l : list A) : list A :=
  match rev l with
  | c :: b :: a :: _ => [a; b; c]
  | _ => l
  end.

(** A curve too short for a single step of the rasterizer. *)
Definition draws_nothing (curve : Bezier (F:=F)) : Prop :=
  loop_count (Math_floor (Bezier_length curve)) = Some 0%nat.

(** The state of a stroke whose samples so far are [recent], the latest
    first: the window holds the last three of them, and the curves
    emitted since the begin join each sample to the next one, up to the
    one before the latest. *)
Definition stroke_state (recent : list (Point (F:=F)))
    (at_begin this : SignatureCanvas (F:=F)) : Prop :=
  points this = last_three (rev recent)
  /\ canvasRect this = canvasRect at_begin
  /\ exists emitted,
       curves this = curves at_begin ++ emitted
       /\ map startPoint emitted = rev (tl (tl recent))
       /\ map endPoint emitted = tl (rev (tl recent)).

End Strokes.

(* ================================================================== *)
(** ** Vocabulary for widths, in exact arithmetic *)
(* ================================================================== *)

Module WidthsR.

Local Open Scope R_scope.



End WidthsR.

(* ================================================================== *)
(** ** The component on its canvas: [clear], the mouse handlers, the
       listeners *)
(* ================================================================== *)

Section Host.

Context {F : Type} `{Number F} {G : Geometry (F:=F)}.

Local Open Scope js_scope.

(** A mouse event: [ev.which], the button that changed, next to the
    fields the stroke methods read. *)
Record MouseEvent : Type := mkMouseEvent { which : nat; pointer : Event (F:=F) }.

(** Where a listener is registered, and the method registered. *)
Inductive Target : Type := the_canvas | the_document | the_window.

Inductive Handler : Type :=
| on_handleMouseDown
| on_handleMouseMove
| on_handleMouseUp
| on_handleTouchStart
| on_handleTouchMove
| on_handleTouchEnd
| on_checkClearOnResize.

(** What the component does outside the strokes. *)
Inductive HostCall : Type :=
| ctx_clearRect (px py w h : F)
| ctx_fillRect (px py w h : F)
| style_msTouchAction (value : string)
| addEventListener (target : Target) (type : string) (handler : Handler)
| removeEventListener (target : Target) (type : string) (handler : Handler).

(** The mounted component: the stroke state, the flag of the mouse
    handlers, the size [this._canvas] reports, and the log of the host
    calls, each with the number of stroke effects logged before it. *)
Record Mounted : Type := mkMounted {
  component : SignatureCanvas (F:=F);
  _mouseButtonDown : bool;
  canvas_width : F;
  canvas_height : F;
  host_calls : list (nat * HostCall)
}.

Definition set_component (c : SignatureCanvas) (this : Mounted) : Mounted :=
  mkMounted c (_mouseButtonDown this) (canvas_width this) (canvas_height this)
    (host_calls this).

Definition set_mouseButtonDown (b : bool) (this : Mounted) : Mounted :=
  mkMounted (component this) b (canvas_width this) (canvas_height this)
    (host_calls this).

(** Log one host call, after the stroke effects logged so far. *)
Definition host_call (c : HostCall) (this : Mounted) : Mounted :=
  mkMounted (component this) (_mouseButtonDown this) (canvas_width this)
    (canvas_height this)
    (host_calls this ++ [(List.length (effects (component this)), c)]).

Definition clear (this : Mounted) : Mounted :=
  let this := set_component
                (perform (ctx_fillStyle (backgroundColor (props (component this))))
                   (component this)) this in
  let this := host_call
                (ctx_clearRect #0 #0 (canvas_width this) (canvas_height this)) this in
  let this := host_call
                (ctx_fillRect #0 #0 (canvas_width this) (canvas_height this)) this in
  let this := set_component (_reset (component this)) this in
  set_component (set_isEmpty true (component this)) this.

Definition isEmpty (this : Mounted) : bool := _isEmpty (component this).

Definition _handleMouseEvents (this : Mounted) : Mounted :=
  let this := set_mouseButtonDown false this in
  let this := host_call (addEventListener the_canvas "mousedown" on_handleMouseDown) this in
  let this := host_call (addEventListener the_canvas "mousemove" on_handleMouseMove) this in
  let this := host_call (addEventListener the_document "mouseup" on_handleMouseUp) this in
  host_call (addEventListener the_window "resize" on_checkClearOnResize) this.

Definition _handleTouchEvents (this : Mounted) : Mounted :=
  let this := host_call (style_msTouchAction "none") this in
  let this := host_call (addEventListener the_canvas "touchstart" on_handleTouchStart) this in
  let this := host_call (addEventListener the_canvas "touchmove" on_handleTouchMove) this in
  host_call (addEventListener the_document "touchend" on_handleTouchEnd) this.

Definition off (this : Mounted) : Mounted :=
  let this := host_call (removeEventListener the_canvas "mousedown" on_handleMouseDown) this in
  let this := host_call (removeEventListener the_canvas "mousemove" on_handleMouseMove) this in
  let this := host_call (removeEventListener the_document "mouseup" on_handleMouseUp) this in
  let this := host_call (removeEventListener the_canvas "touchstart" on_handleTouchStart) this in
  let this := host_call (removeEventListener the_canvas "touchmove" on_handleTouchMove) this in
  let this := host_call (removeEventListener the_document "touchend" on_handleTouchEnd) this in
  host_call (removeEventListener the_window "resize" on_checkClearOnResize) this.

Definition componentWillUnmount (this : Mounted) : Mounted := off this.

Definition _handleMouseDown (now : F) (ev : MouseEvent) (this : Mounted)
    : Outcome Mounted :=
  if (which ev =? 1)%nat then
    let this := set_mouseButtonDown true this in
    c <- _strokeBegin now (pointer ev) (component this) ;;
    Returns (set_component c this)
  else Returns this.

Definition _handleMouseMove (now : F) (ev : MouseEvent) (this : Mounted)
    : Outcome Mounted :=
  if _mouseButtonDown this then
    c <- _strokeUpdate now (pointer ev) (component this) ;;
    Returns (set_component c this)
  else Returns this.

Definition _handleMouseUp (ev : MouseEvent) (this : Mounted) : Outcome Mounted :=
  if (which ev =? 1)%nat && _mouseButtonDown this then
    let this := set_mouseButtonDown false this in
    Returns (set_component (_strokeEnd (pointer ev) (component this)) this)
  else Returns this.

(** What reaches the mounted component: the three mouse events, and a
    call of [clear] by its owner. *)
Inductive HostOp : Type :=
| op_mouseDown (now : F) (ev : MouseEvent)
| op_mouseMove (now : F) (ev : MouseEvent)
| op_mouseUp (ev : MouseEvent)
| op_clear.

Definition host_step (op : HostOp) (this : Mounted) : Outcome Mounted :=
  match op with
  | op_mouseDown now ev => _handleMouseDown now ev this
  | op_mouseMove now ev => _handleMouseMove now ev this
  | op_mouseUp ev => _handleMouseUp ev this
  | op_clear => Returns (clear this)
  end.

Fixpoint host_run (ops : list HostOp) (this : Mounted) : Outcome Mounted :=
  match ops with
  | [] => Returns this
  | op :: ops => this <- host_step op this ;; host_run ops this
  end.

(** Vocabulary. *)

Definition is_clear (op : HostOp) : bool :=
  match op with
  | op_clear => true
  | _ => false
  end.

(** A press of the left button. *)
Definition is_left_press (op : HostOp) : bool :=
  match op with
  | op_mouseDown _ ev => (which ev =? 1)%nat
  | _ => false
  end.

(** The fill style in force after a log, [s] being the one before it. *)
Definition style_after (s : option string) (log : list (Effect (F:=F)))
    : option string :=
  fold_left (fun s e => match e with
                        | ctx_fillStyle color => Some color
                        | _ => s
                        end) log s.

(** The fill style in force at each [fill] of a log. *)
Fixpoint fill_styles (s : option string) (log : list (Effect (F:=F)))
    : list (option string) :=
  match log with
  | [] => []
  | ctx_fillStyle color :: log => fill_styles (Some color) log
  | ctx_fill :: log => s :: fill_styles s log
  | _ :: log => fill_styles s log
  end.

(** Every [fillRect] among the host calls [wipes] was made while the
    fill style of the stroke log [log] was [color]. *)
Definition wiped_in (color : string) (log : list (Effect (F:=F)))
    (wipes : list (nat * HostCall)) : Prop :=
  forall n px py w h,
    In (n, ctx_fillRect px py w h) wipes ->
    (n <= List.length log)%nat
    /\ style_after None (firstn n log) = Some color.

(** The listeners a log of host calls adds, and those it removes. *)
Definition added (calls : list (nat * HostCall)) : list (Target * string * Handler) :=
  flat_map (fun c => match snd c with
                     | addEventListener t ty h => [(t, ty, h)]
                     | _ => []
                     end) calls.

Definition removed (calls : list (nat * HostCall)) : list (Target * string * Handler) :=
  flat_map (fun c => match snd c with
                     | removeEventListener t ty h => [(t, ty, h)]
                     | _ => []
                     end) calls.

End Host.

(* ================================================================== *)
(** ** More concrete inputs *)
(* ================================================================== *)

Module Gestures64.

Import Run64.

Local Open Scope float_scope.

(** The updates of [four_samples]. *)
Definition three_moves : list (float * Event) :=
  [(5, mkEvent 3 0); (9, mkEvent 3 4); (12, mkEvent 0 4)].

(** A pointer that trembles within a quarter of a unit. *)
Definition tremble : list (float * Event) :=
  [(1, mkEvent 0.25 0); (2, mkEvent 0.25 0.25); (3, mkEvent 0 0.25)].

(** A mounted component, idle, on a canvas of 300 by 150. *)
Definition idle64 : Mounted (F:=float) := mkMounted fresh64 false 300 150 [].

(** The same canvas in the middle of a stroke of two samples, the
    button held. *)
Definition held64 : Mounted (F:=float) := mkMounted after_two true 300 150 [].

Definition left_button (px py : float) : MouseEvent :=
  mkMouseEvent 1 (mkEvent px py).

Definition right_button (px py : float) : MouseEvent :=
  mkMouseEvent 3 (mkEvent px py).

(** Press at (0,0), three moves, release at (0,4). *)
Definition drag_moves : list (float * MouseEvent) :=
  [(5, left_button 3 0); (9, left_button 3 4); (12, left_button 0 4)].

Definition drag : list HostOp :=
  op_mouseDown 0 (left_button 0 0)
  :: map (fun m => op_mouseMove (fst m) (snd m)) drag_moves
  ++ [op_mouseUp (left_button 0 4)].

(** Moves, a right click and a stray release, the left button up. *)
Definition hover : list HostOp :=
  [op_mouseMove 1 (left_button 5 5); op_mouseDown 2 (right_button 5 5);
   op_mouseUp (right_button 5 5); op_mouseUp (left_button 6 6);
   op_mouseMove 3 (left_button 7 7)].

(** A drag, a clear in the middle of a second drag, and its end. *)
Definition drag_and_clear : list HostOp :=
  drag
  ++ [op_mouseDown 20 (left_button 1 1); op_mouseMove 21 (left_button 4 1);
      op_clear;
      op_mouseMove 22 (left_button 4 5); op_mouseMove 23 (left_button 8 5);
      op_mouseMove 24 (left_button 8 9); op_mouseUp (left_button 8 9)].

End Gestures64.

Module RunR.

Local Open Scope R_scope.






End RunR.

(* ================================================================== *)
(** * Properties *)
(* ================================================================== *)

Section Facts.

Context {F : Type} `{Number F} {G : Geometry (F:=F)}.

Local Open Scope js_scope.

(** Stamping the samples of a list of counter values appends their
    discs to the log and touches nothing else but [_isEmpty]. *)
Lemma fold_drawCurve_step (curve : Bezier) (sw ew ds : F) (l : list nat) :
  forall this,
    fold_left (fun s i => _drawCurve_step curve sw ew ds (num_of_nat i) s) l this
    = mkSignatureCanvas (props this) (canvasRect this) (points this)
        (_lastVelocity this) (_lastWidth this)
        (isEmpty_after (List.length l) (_isEmpty this))
        (effects this ++ flat_map (sample curve sw ew ds) l) (curves this).
Proof.
  induction l as [|i l IH]; intros [p r w v lw e fx cs]; simpl.
  - now rewrite app_nil_r.
  - rewrite IH. simpl. rewrite <- !app_assoc. simpl.
    destruct l; reflexivity.
Qed.

(** [_drawCurve], in closed form. *)
Lemma drawCurve_closed_form (curve : Bezier) (sw ew : F) (this : SignatureCanvas) :
  _drawCurve curve sw ew this
  = match loop_count (Math_floor (Bezier_length curve)) with
    | Some n =>
        Returns (mkSignatureCanvas (props this) (canvasRect this) (points this)
                   (_lastVelocity this) (_lastWidth this)
                   (isEmpty_after n (_isEmpty this))
                   (effects this ++ curve_effects curve sw ew n) (curves this))
    | None => Hangs
    end.
Proof.
  unfold _drawCurve, for_loop.
  destruct (loop_count (Math_floor (Bezier_length curve))) as [n|]; [|reflexivity].
  simpl. rewrite fold_drawCurve_step. rewrite length_seq.
  unfold perform, curve_effects. simpl.
  rewrite <- !app_assoc. reflexivity.
Qed.


(** [_addCurve], in closed form. *)
Lemma addCurve_closed_form (curve : Bezier) (this : SignatureCanvas) :
  _addCurve curve this
  = match loop_count (Math_floor (Bezier_length curve)) with
    | Some n =>
        Returns (mkSignatureCanvas (props this) (canvasRect this) (points this)
                   (filtered_velocity curve this)
                   (_strokeWidth (filtered_velocity curve this) this)
                   (isEmpty_after n (_isEmpty this))
                   (effects this
                    ++ curve_effects curve (_lastWidth this)
                         (_strokeWidth (filtered_velocity curve this) this) n)
                   (curves this ++ [curve]))
    | None => Hangs
    end.
Proof.
  unfold _addCurve. rewrite drawCurve_closed_form.
  destruct (loop_count (Math_floor (Bezier_length curve))); reflexivity.
Qed.

Lemma addCurve_points (curve : Bezier) (this this' : SignatureCanvas) :
  _addCurve curve this = Returns this' -> points this' = points this.
Proof.
  rewrite addCurve_closed_form.
  destruct (loop_count _); [|discriminate].
  intros E. injection E as <-. reflexivity.
Qed.

Lemma addCurve_never_throws (curve : Bezier) (this : SignatureCanvas) :
  _addCurve curve this <> Throws.
Proof.
  rewrite addCurve_closed_form. destruct (loop_count _); discriminate.
Qed.

#[local] Arguments _calculateCurveControlPoints : simpl never.
#[local] Arguments _addCurve : simpl never.
#[local] Arguments _strokeWidth : simpl never.

(** What [_addPoint] does, by the shape of the window after the push. *)
Lemma addPoint_cases (now : F) (point : Point) (this : SignatureCanvas) :
  match points this ++ [point] with
  | [] | [_] | [_; _] =>
      _addPoint now point this = Returns (set_points (points this ++ [point]) this)
  | [a; b; c] =>
      _addPoint now point this
      = (this' <- _addCurve (curve_of now a a b c) (set_points [a; a; b; c] this) ;;
         Returns (set_points [a; b; c] this'))
  | w0 :: w1 :: w2 :: w3 :: rest =>
      _addPoint now point this
      = (this' <- _addCurve (curve_of now w0 w1 w2 w3)
                    (set_points (w0 :: w1 :: w2 :: w3 :: rest) this) ;;
         Returns (set_points (w1 :: w2 :: w3 :: rest) this'))
  end.
Proof.
  unfold _addPoint.
  destruct (points this ++ [point]) as [|w0 [|w1 [|w2 [|w3 rest]]]] eqn:E;
    simpl; try rewrite E; simpl; try reflexivity.
  - fold (curve_of now w0 w0 w1 w2).
    rewrite !addCurve_closed_form. destruct (loop_count _); reflexivity.
  - fold (curve_of now w0 w1 w2 w3).
    rewrite !addCurve_closed_form. destruct (loop_count _); reflexivity.
Qed.


Lemma addPoint_points (now : F) (point : Point) (this this' : SignatureCanvas) :
  _addPoint now point this = Returns this' ->
  points this'
  = match points this ++ [point] with
    | [a; b; c] => [a; b; c]
    | _ :: w1 :: w2 :: w3 :: rest => w1 :: w2 :: w3 :: rest
    | w => w
    end.
Proof.
  pose proof (addPoint_cases now point this) as C.
  destruct (points this ++ [point]) as [|w0 [|w1 [|w2 [|w3 rest]]]];
    rewrite C; clear C.
  1-3: intros E; injection E as <-; reflexivity.
  all: rewrite addCurve_closed_form; destruct (loop_count _); [|discriminate].
  all: intros E; injection E as <-; reflexivity.
Qed.

Lemma addPoint_window_bound (now : F) (point : Point) (this this' : SignatureCanvas) :
  _addPoint now point this = Returns this' ->
  (List.length (points this) <= 4)%nat ->
  (List.length (points this') <= 4)%nat.
Proof.
  intros E L. rewrite (addPoint_points _ _ _ _ E).
  assert (L' : (List.length (points this ++ [point]) <= 5)%nat)
    by (rewrite length_app; simpl; lia).
  destruct (points this ++ [point]) as [|w0 [|w1 [|w2 [|w3 rest]]]];
    simpl in *; lia.
Qed.

Lemma strokeBegin_closed_form (now : F) (ev : Event) (this : SignatureCanvas) :
  _strokeBegin now ev this
  = Returns (mkSignatureCanvas (props this) (canvasRect this)
               [_createPoint now ev this] #0
               ((minWidth (props this) + maxWidth (props this)) / #2)
               (_isEmpty this)
               (effects this
                ++ [ctx_fillStyle (penColor (props this)); props_onBegin ev])
               (curves this)).
Proof.
  unfold _strokeBegin, _strokeUpdate, _addPoint, _reset, perform. simpl.
  rewrite <- app_assoc. reflexivity.
Qed.

Lemma strokeEnd_closed_form (ev : Event) (this : SignatureCanvas) :
  _strokeEnd ev this
  = match points this with
    | [p] | [p; _] =>
        mkSignatureCanvas (props this) (canvasRect this) (points this)
          (_lastVelocity this) (_lastWidth this) false
          (effects this ++ dot_effects p (dot_size (props this)) ++ [props_onEnd ev])
          (curves this)
    | _ =>
        mkSignatureCanvas (props this) (canvasRect this) (points this)
          (_lastVelocity this) (_lastWidth this) (_isEmpty this)
          (effects this ++ [props_onEnd ev]) (curves this)
    end.
Proof.
  unfold _strokeEnd, _strokeDraw, _drawPoint, perform, dot_effects, disc, dot_size.
  destruct this as [p r w v lw e fx cs]; simpl.
  destruct w as [|w0 [|w1 [|w2 rest]]]; simpl; try reflexivity.
  all: rewrite <- !app_assoc; reflexivity.
Qed.

Lemma handle_window_bound (c : Call) (this this' : SignatureCanvas) :
  handle c this = Returns this' ->
  (List.length (points this) <= 4)%nat ->
  (List.length (points this') <= 4)%nat.
Proof.
  destruct c as [now ev|now ev|ev]; simpl.
  - rewrite strokeBegin_closed_form. intros E _. injection E as <-. simpl. lia.
  - apply addPoint_window_bound.
  - intros E. injection E as <-. rewrite strokeEnd_closed_form.
    destruct (points this) as [|w0 [|w1 [|w2 rest]]]; simpl; trivial.
Qed.

Lemma run_window_bound (cs : list Call) :
  forall this this',
    run cs this = Returns this' ->
    (List.length (points this) <= 4)%nat ->
    (List.length (points this') <= 4)%nat.
Proof.
  induction cs as [|c cs IH]; simpl; intros this this' E L.
  - injection E as <-. exact L.
  - destruct (handle c this) as [mid| |] eqn:Hc; simpl in E; try discriminate.
    eapply IH; [exact E|]. eapply handle_window_bound; eauto.
Qed.


Lemma update_quiet_or_full (first : Point) (at_begin : SignatureCanvas)
    (now : F) (ev : Event) (this this' : SignatureCanvas) :
  quiet_or_full first at_begin this ->
  _strokeUpdate now ev this = Returns this' ->
  quiet_or_full first at_begin this'.
Proof.
  unfold _strokeUpdate. intros Q E.
  pose proof (addPoint_points _ _ _ _ E) as P.
  pose proof (addPoint_cases now (_createPoint now ev this) this) as C.
  destruct Q as [L|(L & N & Pr & Ef & Cu)].
  - left. rewrite P.
    destruct (points this) as [|w0 [|w1 [|w2 [|w3 rest]]]]; simpl in *;
      try discriminate; reflexivity.
  - destruct (points this) as [|w0 [|w1 [|w2 rest]]]; simpl in *;
      try discriminate; try lia.
    + right. rewrite C in E. injection E as <-. simpl. repeat split; auto.
    + left. rewrite P. reflexivity.
Qed.

Lemma updates_quiet_or_full (first : Point) (at_begin : SignatureCanvas)
    (ups : list (F * Event)) :
  forall this this',
    quiet_or_full first at_begin this ->
    run (updates ups) this = Returns this' ->
    quiet_or_full first at_begin this'.
Proof.
  induction ups as [|[now ev] ups IH]; simpl; intros this this' Q E.
  - injection E as <-. exact Q.
  - destruct (_strokeUpdate now ev this) as [mid| |] eqn:U; simpl in E;
      try discriminate.
    eapply IH; [|exact E]. eapply update_quiet_or_full; eauto.
Qed.


(* ================================================================== *)
(** ** The sliding window *)
(* ================================================================== *)

(** C1.  [_addPoint] never throws.  After the push, a window of fewer
    than three samples is left as it is and no curve is emitted; a window
    of exactly three samples [a; b; c] is treated as [a; a; b; c] (the
    first sample duplicated and prepended); on a window [w0; w1; w2; w3;
    ..] the curve handed to [_addCurve] is [Bezier(w1, c2, c1, w2)] with
    [c2] solved from [(w0, w1, w2)] and [c1] from [(w1, w2, w3)], and
    [w0] is then dropped. *)
Theorem addPoint_window_and_curve (now : F) (point : Point) (this : SignatureCanvas) :
  _addPoint now point this <> Throws
  /\ match points this ++ [point] with
     | [] | [_] | [_; _] =>
         _addPoint now point this
         = Returns (set_points (points this ++ [point]) this)
     | [a; b; c] =>
         _addPoint now point this
         = (this' <- _addCurve
                       (mkBezier a
                          (c2 (_calculateCurveControlPoints now a a b))
                          (c1 (_calculateCurveControlPoints now a b c))
                          b)
                       (set_points [a; a; b; c] this) ;;
            Returns (set_points [a; b; c] this'))
     | w0 :: w1 :: w2 :: w3 :: rest =>
         _addPoint now point this
         = (this' <- _addCurve
                       (mkBezier w1
                          (c2 (_calculateCurveControlPoints now w0 w1 w2))
                          (c1 (_calculateCurveControlPoints now w1 w2 w3))
                          w2)
                       (set_points (w0 :: w1 :: w2 :: w3 :: rest) this) ;;
            Returns (set_points (w1 :: w2 :: w3 :: rest) this'))
     end.
Proof.
  pose proof (addPoint_cases now point this) as C.
  destruct (points this ++ [point]) as [|w0 [|w1 [|w2 [|w3 rest]]]];
    (split; [rewrite C|exact C]); try discriminate.
  all: rewrite addCurve_closed_form; destruct (loop_count _); discriminate.
Qed.

(** C8.  From a window of at most four samples, whatever calls of
    [begin], [update] and [end] complete, the window holds at most four
    samples afterwards; and a [begin] at that point clears it, leaving
    the begin sample alone. *)
Theorem window_never_exceeds_four (cs : list Call) (this this' : SignatureCanvas) :
  (List.length (points this) <= 4)%nat ->
  run cs this = Returns this' ->
  (List.length (points this') <= 4)%nat
  /\ points (_reset this') = []
  /\ forall now ev,
       exists begun,
         _strokeBegin now ev this' = Returns begun
         /\ points begun = [_createPoint now ev this'].
Proof.
  intros L E. split; [|split].
  - eapply run_window_bound; eauto.
  - reflexivity.
  - intros now ev. eexists. split; [apply strokeBegin_closed_form|reflexivity].
Qed.

(* ================================================================== *)
(** ** The rasterizer *)
(* ================================================================== *)



(* ================================================================== *)
(** ** The velocity filter *)
(* ================================================================== *)

(** C7.  The default filter weight is 0.7.  A stroke begin always
    returns and leaves [(_lastVelocity, _lastWidth) = (0, (minWidth +
    maxWidth) / 2)].  [_addCurve] smooths the raw velocity of the curve
    as [weight * raw + (1 - weight) * _lastVelocity], draws the curve
    from the width [_lastWidth] to the width of the smoothed velocity,
    and stores the smoothed velocity and that width; so of two curves
    added one after the other, the second starts at the width the first
    ended with. *)
Theorem filter_state_threading :
  velocityFilterWeight defaultProps = #0.7
  /\ (forall now ev this,
        exists begun,
          _strokeBegin now ev this = Returns begun
          /\ _lastVelocity begun = #0
          /\ _lastWidth begun
             = (minWidth (props this) + maxWidth (props this)) / #2)
  /\ (forall curve this,
        let velocity :=
          velocityFilterWeight (props this)
            * Point_velocityFrom (endPoint curve) (startPoint curve)
          + (#1 - velocityFilterWeight (props this)) * _lastVelocity this in
        let newWidth := _strokeWidth velocity this in
        match loop_count (Math_floor (Bezier_length curve)) with
        | Some steps =>
            exists this',
              _addCurve curve this = Returns this'
              /\ effects this'
                 = effects this
                   ++ curve_effects curve (_lastWidth this) newWidth steps
              /\ _lastVelocity this' = velocity
              /\ _lastWidth this' = newWidth
              /\ props this' = props this
        | None => _addCurve curve this = Hangs
        end)
  /\ (forall curve next this,
        match loop_count (Math_floor (Bezier_length curve)),
              loop_count (Math_floor (Bezier_length next)) with
        | Some steps, Some steps' =>
            exists mid last,
              _addCurve curve this = Returns mid
              /\ _addCurve next mid = Returns last
              /\ effects last
                 = effects this
                   ++ curve_effects curve (_lastWidth this) (_lastWidth mid) steps
                   ++ curve_effects next (_lastWidth mid) (_lastWidth last) steps'
        | _, _ => True
        end).
Proof.
  split; [reflexivity|]. split; [|split].
  - intros now ev this. eexists.
    split; [apply strokeBegin_closed_form|]. split; reflexivity.
  - intros curve this velocity newWidth.
    rewrite addCurve_closed_form.
    destruct (loop_count _) as [steps|]; [|reflexivity].
    eexists. split; [reflexivity|]. repeat split.
  - intros curve next this.
    destruct (loop_count (Math_floor (Bezier_length curve))) as [steps|] eqn:E;
      [|trivial].
    destruct (loop_count (Math_floor (Bezier_length next))) as [steps'|] eqn:E';
      [|trivial].
    eexists. eexists.
    split; [rewrite addCurve_closed_form, E; reflexivity|].
    split; [rewrite addCurve_closed_form, E'; reflexivity|].
    simpl. rewrite <- app_assoc. reflexivity.
Qed.


(* ================================================================== *)
(** ** The end of a stroke *)
(* ================================================================== *)

(** C3 (as the code has it).  [_strokeEnd] makes no update: the window,
    the filter state and the curves emitted so far are left as they
    were, the sample of the end event is not appended.  It only paints
    the fallback dot when the window holds one or two samples, and then
    notifies [onEnd]. *)
Theorem strokeEnd_makes_no_update (ev : Event) (this : SignatureCanvas) :
  points (_strokeEnd ev this) = points this
  /\ curves (_strokeEnd ev this) = curves this
  /\ _lastVelocity (_strokeEnd ev this) = _lastVelocity this
  /\ _lastWidth (_strokeEnd ev this) = _lastWidth this
  /\ effects (_strokeEnd ev this)
     = effects this
       ++ match points this with
          | [first] | [first; _] => dot_effects first (dot_size (props this))
          | _ => []
          end
       ++ [props_onEnd ev].
Proof.
  rewrite strokeEnd_closed_form.
  destruct (points this) as [|w0 [|w1 [|w2 rest]]] eqn:E; simpl;
    rewrite ?E; repeat split; reflexivity.
Qed.

(** C9.  Take a stroke, a [begin] followed by updates, that returns
    with fewer than three samples in the window.  No curve was emitted
    and nothing was painted during the stroke, and [_strokeEnd] paints
    one dot, at the begin sample, whose size is the configured
    [dotSize]: the number itself, or the function applied to
    [(minWidth, maxWidth)]; no curve is emitted by the end either. *)
Theorem short_stroke_paints_one_dot (now0 : F) (ev0 : Event)
    (ups : list (F * Event)) (ev : Event) (this0 this1 : SignatureCanvas) :
  run (call_begin now0 ev0 :: updates ups) this0 = Returns this1 ->
  (List.length (points this1) < 3)%nat ->
  curves this1 = curves this0
  /\ effects this1
     = effects this0 ++ [ctx_fillStyle (penColor (props this0)); props_onBegin ev0]
  /\ curves (_strokeEnd ev this1) = curves this0
  /\ effects (_strokeEnd ev this1)
     = effects this1
       ++ [ctx_beginPath;
           ctx_moveTo (x (_createPoint now0 ev0 this0)) (y (_createPoint now0 ev0 this0));
           ctx_arc (x (_createPoint now0 ev0 this0)) (y (_createPoint now0 ev0 this0))
             match dotSize (props this0) with
             | DotSizeFunction f => f (minWidth (props this0)) (maxWidth (props this0))
             | DotSizeNumber size => size
             end
             #0 (#2 * Math_PI) false;
           ctx_closePath;
           ctx_fill]
       ++ [props_onEnd ev].
Proof.
  cbn [run handle]. rewrite strokeBegin_closed_form. cbn [bind]. intros R L.
  set (first := _createPoint now0 ev0 this0) in *.
  match type of R with run _ ?b = _ => set (begun := b) in * end.
  assert (Q : quiet_or_full first begun this1).
  { eapply updates_quiet_or_full; [|exact R].
    right. simpl. repeat split; auto. }
  destruct Q as [Q|(_ & N & Pr & Ef & Cu)]; [lia|].
  rewrite strokeEnd_closed_form.
  destruct (points this1) as [|w0 [|w1 [|w2 rest]]]; simpl in *;
    try discriminate; try lia.
  all: injection N as ->; rewrite Pr, Ef, Cu; simpl; repeat split; reflexivity.
Qed.

(** C10.  A stroke of exactly two samples, [begin] then one [update],
    then [end]: every step returns, and the end paints the dot at the
    coordinates of the begin sample, the first entry of the window, with
    the [dotSize] value itself as the radius of the arc. *)
Theorem two_sample_stroke_dot (now0 now1 : F) (ev0 ev1 ev : Event)
    (this : SignatureCanvas) :
  let first := _createPoint now0 ev0 this in
  let second := _createPoint now1 ev1 this in
  exists ended,
    (this <- _strokeBegin now0 ev0 this ;;
     this <- _strokeUpdate now1 ev1 this ;;
     Returns (_strokeEnd ev this)) = Returns ended
    /\ points ended = [first; second]
    /\ nth_error (points ended) 0 = Some first
    /\ curves ended = curves this
    /\ effects ended
       = effects this
         ++ [ctx_fillStyle (penColor (props this));
             props_onBegin ev0;
             ctx_beginPath;
             ctx_moveTo (x first) (y first);
             ctx_arc (x first) (y first) (dot_size (props this))
               #0 (#2 * Math_PI) false;
             ctx_closePath;
             ctx_fill;
             props_onEnd ev].
Proof.
  intros first second. rewrite strokeBegin_closed_form. cbn [bind].
  eexists. split; [reflexivity|].
  rewrite strokeEnd_closed_form. simpl.
  repeat split; try reflexivity.
  rewrite <- !app_assoc. reflexivity.
Qed.

End Facts.

(* ================================================================== *)
(** * Properties in binary64 *)
(* ================================================================== *)

Module Facts64.

Import Run64.

Local Open Scope float_scope.

Lemma sub_diag_zero_or_nan (a : float) : a - a = 0 \/ a - a = nan.
Proof.
  assert (D : Prim2SF (a - a) = S754_zero false \/ Prim2SF (a - a) = S754_nan).
  { rewrite sub_spec. unfold SF64sub, SFsub.
    destruct (Prim2SF a) as [[|]|[|]| |s m e]; auto.
    left. rewrite Z.sub_diag. reflexivity. }
  destruct D as [D|D]; [left|right]; apply Prim2SF_inj; rewrite D; reflexivity.
Qed.

Lemma mul_nan_r (a : float) : a * nan = nan.
Proof.
  apply Prim2SF_inj. rewrite mul_spec.
  change (Prim2SF nan) with S754_nan.
  destruct (Prim2SF a) as [[|]|[|]| |s m e]; reflexivity.
Qed.

Lemma add_nan_r (a : float) : a + nan = nan.
Proof.
  apply Prim2SF_inj. rewrite add_spec.
  change (Prim2SF nan) with S754_nan.
  destruct (Prim2SF a) as [[|]|[|]| |s m e]; reflexivity.
Qed.

Lemma sub_nan_r (a : float) : a - nan = nan.
Proof.
  apply Prim2SF_inj. rewrite sub_spec.
  change (Prim2SF nan) with S754_nan.
  destruct (Prim2SF a) as [[|]|[|]| |s m e]; reflexivity.
Qed.

(** The instance computes what the engine does on a few known values. *)
Example lit_nearest_double :
  Float64.lit 0.7 = 0x1.6666666666666p-1 /\ Float64.lit 2.0 = 2 /\ Float64.lit 2.5 = 2.5.
Proof. repeat split; vm_compute; reflexivity. Qed.

Example floor_known_values :
  map Float64.floor [2.5; -2.5; 0.5; -0.5; -0; 7; infinity]
  = [2; -3; 0; -1; -0; 7; infinity].
Proof. vm_compute. reflexivity. Qed.

Example count_known_values :
  map Float64.count [3; 2.5; 0; -2; nan; infinity]
  = [Some 3%nat; Some 3%nat; Some 0%nat; Some 0%nat; Some 0%nat; None].
Proof. vm_compute. reflexivity. Qed.

(** [Float64.count] against the loop test [i < n], for the first
    counter values. *)
Example count_is_the_loop_test :
  forallb
    (fun n =>
       match Float64.count n with
       | Some k =>
           forallb (fun i => Bool.eqb (PrimFloat.ltb (Float64.of_nat i) n) (i <? k)%nat)
             (seq 0 9)
       | None => false
       end)
    [3; 2.5; 0.25; 0; -0; -2; 7; nan; neg_infinity]
  = true.
Proof. vm_compute. reflexivity. Qed.

Example max_known_values :
  map (fun p => Float64.max (fst p) (snd p)) [(1, 2); (2, 1); (nan, 1); (-0, 0); (0, -0)]
  = [2; 2; nan; 0; 0].
Proof. vm_compute. reflexivity. Qed.

(** The blend factor of two segments of the same degenerate length. *)
Lemma degenerate_blend (d e : float) :
  (d = 0 \/ d = nan) -> (e = 0 \/ e = nan) ->
  PrimFloat.sqrt (d * d + e * e)
  / (PrimFloat.sqrt (d * d + e * e) + PrimFloat.sqrt (d * d + e * e)) = nan.
Proof.
  intros [-> | ->] [-> | ->]; reflexivity.
Qed.

(** C2 (as the code has it).  The solver divides [l2] by [l1 + l2]
    without a guard: for three samples at the same place, whatever their
    time stamps, the blend factor [k] is NaN, not 0, and so are all four
    coordinates of the control points it returns. *)
Theorem solver_coincident_samples_nan (now px py t1 t2 t3 : float) :
  let s1 := mkPoint px py t1 in
  let s2 := mkPoint px py t2 in
  let s3 := mkPoint px py t3 in
  blend_factor s1 s2 s3 = nan
  /\ _calculateCurveControlPoints now s1 s2 s3
     = {| c1 := mkPoint nan nan now; c2 := mkPoint nan nan now |}.
Proof.
  intros s1 s2 s3.
  pose proof (degenerate_blend _ _ (sub_diag_zero_or_nan px)
                (sub_diag_zero_or_nan py)) as K.
  split.
  - exact K.
  - unfold _calculateCurveControlPoints. cbn -[Float64.lit].
    rewrite K.
    rewrite !mul_nan_r, !add_nan_r, !sub_nan_r, !add_nan_r. reflexivity.
Qed.

(** C2, counterexample.  Three finite samples at (1, 2), taken at the
    times 0, 1 and 2: the solver returns control points whose
    coordinates are NaN, hence not finite, and its blend factor is NaN
    rather than 0. *)
Lemma solver_nan_at_still_samples :
  PrimFloat.is_finite (x (still 0)) = true
  /\ PrimFloat.is_finite (y (still 0)) = true
  /\ _calculateCurveControlPoints 2 (still 0) (still 1) (still 2)
     = {| c1 := mkPoint nan nan 2; c2 := mkPoint nan nan 2 |}
  /\ PrimFloat.is_finite
       (x (c1 (_calculateCurveControlPoints 2 (still 0) (still 1) (still 2))))
     = false
  /\ PrimFloat.is_nan (blend_factor (still 0) (still 1) (still 2)) = true
  /\ PrimFloat.eqb (blend_factor (still 0) (still 1) (still 2)) 0 = false.
Proof.
  repeat split; vm_compute; reflexivity.
Qed.

(** Such samples do reach the solver: a resting pointer makes
    [_addPoint] emit a curve whose control points are NaN. *)
Example resting_pointer_curve :
  exists this',
    run resting fresh64 = Returns this'
    /\ curves this'
       = [mkBezier (mkPoint 1 2 0) (mkPoint nan nan 2) (mkPoint nan nan 2)
            (mkPoint 1 2 1)].
Proof.
  eexists. split; vm_compute; reflexivity.
Qed.

(** C3, counterexample.  After a begin at (0,0) and one move to (3,0)
    the pointer is released at (3,4).  [_strokeEnd] leaves the two
    samples in the window and emits no curve; an end that first made an
    update with the release sample would hold three samples and have
    emitted one curve. *)
Lemma strokeEnd_skips_final_update :
  run (G:=G64) two_samples fresh64 = Returns after_two
  /\ points (_strokeEnd release after_two) = [mkPoint 0 0 0; mkPoint 3 0 5]
  /\ curves (_strokeEnd release after_two) = []
  /\ (exists updated,
        spec_strokeEnd (G:=G64) 9 release after_two = Returns updated
        /\ points updated = [mkPoint 0 0 0; mkPoint 3 0 5; mkPoint 3 4 9]
        /\ List.length (curves updated) = 1%nat)
  /\ Returns (_strokeEnd release after_two)
     <> spec_strokeEnd (G:=G64) 9 release after_two.
Proof.
  split; [vm_compute; reflexivity|].
  split; [vm_compute; reflexivity|].
  split; [vm_compute; reflexivity|].
  split.
  - eexists. split; [vm_compute; reflexivity|]. split; reflexivity.
  - intros E.
    apply (f_equal (fun o => match o with
                             | Returns s => List.length (points s)
                             | _ => 0%nat
                             end)) in E.
    vm_compute in E. discriminate E.
Qed.





(** A stroke of four samples and its end, from a fresh component. *)
Lemma window_never_exceeds_four_witness :
  (List.length (points fresh64) <= 4)%nat
  /\ exists this',
       run four_samples fresh64 = Returns this'
       /\ ((List.length (points this') <= 4)%nat
           /\ points (_reset this') = []
           /\ forall now ev,
                exists begun,
                  _strokeBegin now ev this' = Returns begun
                  /\ points begun = [_createPoint now ev this']).
Proof.
  split; [vm_compute; lia|].
  eexists. split.
  - vm_compute. reflexivity.
  - refine (window_never_exceeds_four four_samples fresh64 _ _ _).
    + vm_compute. lia.
    + vm_compute. reflexivity.
Defined.

(** The stroke of two samples, released at (3,4): one dot at (0,0) of
    radius (0.5 + 2.5) / 2. *)
Lemma short_stroke_paints_one_dot_witness :
  run (call_begin 0 (mkEvent 0 0) :: updates [(5, mkEvent 3 0)]) fresh64
  = Returns after_two
  /\ (List.length (points after_two) < 3)%nat
  /\ (curves after_two = curves fresh64
      /\ effects after_two
         = effects fresh64 ++ [ctx_fillStyle "black"; props_onBegin (mkEvent 0 0)]
      /\ curves (_strokeEnd release after_two) = curves fresh64
      /\ effects (_strokeEnd release after_two)
         = effects after_two
           ++ [ctx_beginPath;
               ctx_moveTo 0 0;
               ctx_arc 0 0 1.5 0 (2 * Float64.PI) false;
               ctx_closePath;
               ctx_fill]
           ++ [props_onEnd release]).
Proof.
  split; [vm_compute; reflexivity|].
  split; [vm_compute; lia|].
  refine (short_stroke_paints_one_dot 0 (mkEvent 0 0) [(5, mkEvent 3 0)]
            release fresh64 after_two _ _).
  - vm_compute. reflexivity.
  - vm_compute. lia.
Defined.

End Facts64.

(* ================================================================== *)
(** * Properties in exact arithmetic *)
(* ================================================================== *)

Module FactsR.

Local Open Scope R_scope.


Lemma lit_1 : num_lit (F:=R) 1%Q = 1.
Proof. cbn. unfold Q2R. simpl. lra. Qed.


(** The trips of the rasterizer's loop are the floor of the length. *)
Lemma count_floor (a : R) :
  loop_count (Math_floor a) = Some (Z.to_nat (Int_part a)).
Proof.
  cbn. unfold Exact.count, Exact.floor. do 2 f_equal.
  rewrite <- opp_IZR.
  rewrite <- (Int_part_spec (IZR (- Int_part a)) (- Int_part a)); [lia|].
  lra.
Qed.

Lemma strokeWidth_is_max (this : SignatureCanvas (F:=R)) (v : R) :
  _strokeWidth v this
  = Rmax (maxWidth (props this) / (v + 1)) (minWidth (props this)).
Proof.
  unfold _strokeWidth. rewrite lit_1. reflexivity.
Qed.



(** Across the pole at -1 the exact mapper rises as well. *)
Example strokeWidth_rises_across_the_pole :
  _strokeWidth (-3) (fresh (F:=R)) = 1 / 2
  /\ _strokeWidth (-1 / 2) (fresh (F:=R)) = 5.
Proof.
  rewrite !strokeWidth_is_max. cbn. unfold Q2R. simpl. split.
  - rewrite Rmax_right; lra.
  - rewrite Rmax_left; lra.
Qed.

End FactsR.

(* ================================================================== *)
(** * Further properties: whole strokes, the mouse, [clear] *)
(* ================================================================== *)

Section StrokeFacts.

Context {F : Type} `{Number F} {G : Geometry (F:=F)}.

Local Open Scope js_scope.

#[local] Arguments _calculateCurveControlPoints : simpl never.
#[local] Arguments _strokeWidth : simpl never.

Lemma no_arc_app (l l' : list (Effect (F:=F))) :
  no_arc (l ++ l') = no_arc l && no_arc l'.
Proof. apply forallb_app. Qed.

(** A fill pass holds an arc as soon as it has one sample. *)
Lemma no_arc_curve_effects (curve : Bezier) (sw ew : F) (n : nat) :
  no_arc (curve_effects curve sw ew n) = (n =? 0)%nat.
Proof.
  unfold curve_effects. rewrite !no_arc_app. simpl. rewrite andb_true_r.
  destruct n as [|n]; [reflexivity|].
  rewrite <- cons_seq. simpl. reflexivity.
Qed.

Lemma isEmpty_after_spec (n : nat) (b : bool) :
  isEmpty_after n b = b && (n =? 0)%nat.
Proof. destruct n, b; reflexivity. Qed.

(** What one call adds to the log and to the curves, and what it does to
    [_isEmpty]. *)
Lemma handle_delta (c : Call) (this this' : SignatureCanvas) :
  handle c this = Returns this' ->
  exists delta emitted,
    effects this' = effects this ++ delta
    /\ curves this' = curves this ++ emitted
    /\ props this' = props this
    /\ canvasRect this' = canvasRect this
    /\ _isEmpty this' = _isEmpty this && no_arc delta
    /\ (Forall draws_nothing emitted ->
        no_arc delta = match c with
                       | call_end _ => (2 <? List.length (points this))%nat
                                       || (List.length (points this) =? 0)%nat
                       | _ => true
                       end).
Proof.
  destruct c as [now ev|now ev|ev]; simpl.
  - rewrite strokeBegin_closed_form. intros E. injection E as <-.
    exists [ctx_fillStyle (penColor (props this)); props_onBegin ev], [].
    simpl. rewrite app_nil_r, andb_true_r.
    repeat split; reflexivity.
  - unfold _strokeUpdate.
    pose proof (addPoint_cases now (_createPoint now ev this) this) as C.
    destruct (points this ++ [_createPoint now ev this])
      as [|w0 [|w1 [|w2 [|w3 rest]]]]; rewrite C; clear C.
    1-3: intros E; injection E as <-; exists [], []; simpl;
         rewrite !app_nil_r, andb_true_r; repeat split; reflexivity.
    all: rewrite addCurve_closed_form;
         destruct (loop_count _) as [n|] eqn:L; [|discriminate];
         intros E; injection E as <-; simpl.
    all: eexists; eexists; split; [reflexivity|]; split; [reflexivity|].
    all: rewrite no_arc_curve_effects, isEmpty_after_spec.
    all: repeat split.
    all: intros D; apply Forall_inv in D; unfold draws_nothing in D.
    all: rewrite L in D; injection D as ->; reflexivity.
  - intros E. injection E as <-. rewrite strokeEnd_closed_form.
    exists (match points this with
            | [first] | [first; _] => dot_effects first (dot_size (props this))
            | _ => []
            end ++ [props_onEnd ev]), [].
    rewrite app_nil_r.
    destruct (points this) as [|w0 [|w1 [|w2 rest]]]; simpl;
      rewrite ?andb_false_r, ?andb_true_r; repeat split; reflexivity.
Qed.


Lemma handle_never_throws (c : Call) (this : SignatureCanvas) :
  handle c this <> Throws.
Proof.
  destruct c as [now ev|now ev|ev]; cbn [handle].
  - rewrite strokeBegin_closed_form. discriminate.
  - unfold _strokeUpdate.
    pose proof (addPoint_cases now (_createPoint now ev this) this) as C.
    destruct (points this ++ [_createPoint now ev this])
      as [|w0 [|w1 [|w2 [|w3 rest]]]]; rewrite C; try discriminate.
    all: rewrite addCurve_closed_form; destruct (loop_count _); discriminate.
  - discriminate.
Qed.

Lemma run_delta (cs : list Call) :
  forall this this',
    run cs this = Returns this' ->
    exists delta emitted,
      effects this' = effects this ++ delta
      /\ curves this' = curves this ++ emitted
      /\ props this' = props this
      /\ canvasRect this' = canvasRect this
      /\ _isEmpty this' = _isEmpty this && no_arc delta.
Proof.
  induction cs as [|c cs IH]; simpl; intros this this' E.
  - injection E as <-. exists [], []. rewrite !app_nil_r, andb_true_r.
    repeat split; reflexivity.
  - destruct (handle c this) as [mid| |] eqn:Hc; simpl in E; try discriminate.
    destruct (handle_delta _ _ _ Hc) as (d1 & e1 & A1 & B1 & C1 & D1 & E1 & _).
    destruct (IH _ _ E) as (d2 & e2 & A2 & B2 & C2 & D2 & E2).
    exists (d1 ++ d2), (e1 ++ e2).
    rewrite A2, A1, B2, B1, C2, C1, D2, D1, E2, E1, no_arc_app, !app_assoc, andb_assoc.
    repeat split; reflexivity.
Qed.

(** Updates whose curves are all too short to be drawn add no arc. *)
Lemma updates_delta (ups : list (F * Event)) :
  forall this this',
    run (updates ups) this = Returns this' ->
    exists delta emitted,
      effects this' = effects this ++ delta
      /\ curves this' = curves this ++ emitted
      /\ (Forall draws_nothing emitted -> no_arc delta = true).
Proof.
  induction ups as [|[now ev] ups IH]; simpl; intros this this' E.
  - injection E as <-. exists [], []. rewrite !app_nil_r. repeat split; reflexivity.
  - destruct (_strokeUpdate now ev this) as [mid| |] eqn:Hc; simpl in E;
      try discriminate.
    destruct (handle_delta (call_update now ev) _ _ Hc)
      as (d1 & e1 & A1 & B1 & _ & _ & _ & N1).
    destruct (IH _ _ E) as (d2 & e2 & A2 & B2 & N2).
    exists (d1 ++ d2), (e1 ++ e2).
    rewrite A2, A1, B2, B1, !app_assoc.
    split; [reflexivity|]. split; [reflexivity|].
    intros D. apply Forall_app in D. destruct D as [D1 D2].
    rewrite no_arc_app, (N1 D1), (N2 D2). reflexivity.
Qed.

Lemma last_three_rev (recent : list (Point (F:=F))) :
  last_three (rev recent)
  = match recent with
    | c :: b :: a :: _ => [a; b; c]
    | _ => rev recent
    end.
Proof.
  unfold last_three. rewrite rev_involutive.
  destruct recent as [|c [|b [|a rest]]]; reflexivity.
Qed.

(** One update keeps [stroke_state], with the new sample in front. *)
Lemma update_stroke_state (recent : list Point) (at_begin : SignatureCanvas)
    (now : F) (ev : Event) (this this' : SignatureCanvas) :
  recent <> [] ->
  stroke_state recent at_begin this ->
  _strokeUpdate now ev this = Returns this' ->
  stroke_state (_createPoint now ev at_begin :: recent) at_begin this'.
Proof.
  intros NE (W & R & emitted & Cu & St & En) U.
  unfold _strokeUpdate in U.
  assert (P : _createPoint now ev this = _createPoint now ev at_begin)
    by (unfold _createPoint; rewrite R; reflexivity).
  rewrite P in U. set (p := _createPoint now ev at_begin) in *.
  pose proof (addPoint_cases now p this) as C.
  rewrite last_three_rev in W.
  unfold stroke_state. rewrite last_three_rev.
  destruct recent as [|c [|b [|a rest]]]; [congruence| | |];
    rewrite W in C; simpl in C; rewrite C in U; clear C.
  - injection U as <-. simpl. split; [reflexivity|]. split; [exact R|].
    exists emitted. simpl in *. auto.
  - rewrite addCurve_closed_form in U.
    destruct (loop_count _); [|discriminate]. injection U as <-. simpl.
    split; [reflexivity|]. split; [exact R|].
    exists (emitted ++ [curve_of now b b c p]).
    rewrite Cu, <- app_assoc, !map_app, St, En. simpl. auto.
  - rewrite addCurve_closed_form in U.
    destruct (loop_count _); [|discriminate]. injection U as <-. simpl.
    split; [reflexivity|]. split; [exact R|].
    exists (emitted ++ [curve_of now a b c p]).
    rewrite Cu, <- app_assoc, !map_app, St, En. simpl.
    split; [reflexivity|]. split; [reflexivity|].
    destruct (rev rest ++ [a]) eqn:Z; [destruct (rev rest); discriminate|].
    simpl. rewrite <- app_assoc. reflexivity.
Qed.


Lemma updates_stroke_state (at_begin : SignatureCanvas) (ups : list (F * Event)) :
  forall recent this this',
    recent <> [] ->
    stroke_state recent at_begin this ->
    run (updates ups) this = Returns this' ->
    stroke_state
      (rev (map (fun u => _createPoint (fst u) (snd u) at_begin) ups) ++ recent)
      at_begin this'.
Proof.
  induction ups as [|[now ev] ups IH]; simpl; intros recent this this' NE S E.
  - injection E as <-. exact S.
  - destruct (_strokeUpdate now ev this) as [mid| |] eqn:U; simpl in E;
      try discriminate.
    rewrite <- app_assoc. simpl.
    apply (IH (_createPoint now ev at_begin :: recent) mid this');
      [discriminate| |exact E].
    eapply update_stroke_state; eauto.
Qed.

(** The state in which the updates of a stroke leave the component. *)
Lemma stroke_reaches_state (now0 : F) (ev0 : Event) (ups : list (F * Event))
    (this0 this1 : SignatureCanvas) :
  run (call_begin now0 ev0 :: updates ups) this0 = Returns this1 ->
  stroke_state (rev (stroke_samples this0 now0 ev0 ups)) this0 this1.
Proof.
  cbn [run handle]. rewrite strokeBegin_closed_form. cbn [bind]. intros R.
  unfold stroke_samples. simpl rev.
  eapply updates_stroke_state; [discriminate| |exact R].
  split; [reflexivity|]. split; [reflexivity|].
  exists []. simpl. rewrite app_nil_r. auto.
Qed.

Lemma tl_rev {A : Type} (l : list A) : tl (rev l) = rev (removelast l).
Proof.
  destruct l as [|a l] using rev_ind; [reflexivity|].
  rewrite rev_app_distr, removelast_last. reflexivity.
Qed.

Lemma length_removelast {A : Type} (l : list A) :
  List.length (removelast l) = (List.length l - 1)%nat.
Proof.
  rewrite removelast_firstn_len, length_firstn. lia.
Qed.

(* ================================================================== *)
(** ** Whole strokes *)
(* ================================================================== *)

(** X1.  Whatever calls of [begin], [update] and [end] complete, the log
    has only grown, the props are untouched, and [_isEmpty] afterwards
    is [_isEmpty] before, cleared as soon as one arc was added: the
    strokes never set it back to [true]. *)
Theorem isEmpty_tracks_ink (cs : list Call) (this this' : SignatureCanvas) :
  run cs this = Returns this' ->
  exists delta,
    effects this' = effects this ++ delta
    /\ props this' = props this
    /\ _isEmpty this' = _isEmpty this && no_arc delta.
Proof.
  intros E. destruct (run_delta _ _ _ E) as (delta & _ & A & _ & P & _ & I).
  exists delta. auto.
Qed.

(** X2.  After the begin and the updates of a stroke the window holds
    the last three samples of the stroke, in the order they came, or all
    of them when there are fewer. *)
Theorem window_holds_last_three (now0 : F) (ev0 : Event) (ups : list (F * Event))
    (this0 this1 : SignatureCanvas) :
  run (call_begin now0 ev0 :: updates ups) this0 = Returns this1 ->
  points this1 = last_three (stroke_samples this0 now0 ev0 ups).
Proof.
  intros R. destruct (stroke_reaches_state _ _ _ _ _ R) as (W & _).
  rewrite W, rev_involutive. reflexivity.
Qed.

(** X3.  The curves a stroke emits join each sample to the next one, in
    order, the last sample excepted: with the samples [s0 .. sn] the
    curves run from [s0] to [s1], ..., from [s(n-2)] to [s(n-1)].  There
    is one curve less than there are updates, and no curve ends on the
    last sample. *)
Theorem curves_join_consecutive_samples (now0 : F) (ev0 : Event)
    (ups : list (F * Event)) (this0 this1 : SignatureCanvas) :
  run (call_begin now0 ev0 :: updates ups) this0 = Returns this1 ->
  exists emitted,
    curves this1 = curves this0 ++ emitted
    /\ map startPoint emitted
       = removelast (removelast (stroke_samples this0 now0 ev0 ups))
    /\ map endPoint emitted
       = tl (removelast (stroke_samples this0 now0 ev0 ups))
    /\ List.length emitted = (List.length ups - 1)%nat.
Proof.
  intros R.
  destruct (stroke_reaches_state _ _ _ _ _ R) as (_ & _ & emitted & Cu & St & En).
  set (ss := stroke_samples this0 now0 ev0 ups) in *.
  rewrite (tl_rev ss), (tl_rev (removelast ss)), rev_involutive in St.
  rewrite (tl_rev ss), rev_involutive in En.
  exists emitted. repeat split; auto.
  rewrite <- (length_map endPoint), En.
  assert (L : List.length ss = S (List.length ups))
    by (unfold ss, stroke_samples; simpl; rewrite length_map; reflexivity).
  pose proof (length_removelast ss) as L'.
  destruct (removelast ss); simpl in *; lia.
Qed.


Lemma length_last_three {A : Type} (l : list A) :
  (3 <= List.length l)%nat -> List.length (last_three l) = 3%nat.
Proof.
  unfold last_three. rewrite <- length_rev.
  destruct (rev l) as [|c [|b [|a rest]]]; simpl; intros L; try lia.
Qed.

(** X4.  A stroke of three samples or more, all of whose curves are too
    short for one step of the rasterizer, leaves no ink at all: neither
    its updates nor its end add an arc, and [_isEmpty] is what it was
    before the stroke. *)
Theorem short_curves_leave_no_ink (now0 : F) (ev0 : Event) (ups : list (F * Event))
    (ev : Event) (this0 this1 : SignatureCanvas) (emitted : list Bezier) :
  run (call_begin now0 ev0 :: updates ups) this0 = Returns this1 ->
  (2 <= List.length ups)%nat ->
  curves this1 = curves this0 ++ emitted ->
  Forall draws_nothing emitted ->
  exists delta,
    effects (_strokeEnd ev this1) = effects this0 ++ delta
    /\ no_arc delta = true
    /\ _isEmpty (_strokeEnd ev this1) = _isEmpty this0.
Proof.
  intros R L Cu D.
  pose proof (stroke_reaches_state _ _ _ _ _ R) as (W & _).
  rewrite rev_involutive in W.
  assert (L3 : List.length (points this1) = 3%nat).
  { rewrite W. apply length_last_three.
    unfold stroke_samples. simpl. rewrite length_map. lia. }
  revert R. cbn [run handle]. rewrite strokeBegin_closed_form. cbn [bind].
  intros R. destruct (updates_delta _ _ _ R) as (d1 & e1 & A1 & B1 & N1).
  simpl in A1, B1. rewrite Cu in B1. apply app_inv_head in B1. subst e1.
  specialize (N1 D).
  destruct (run_delta _ _ _ R) as (d1' & _ & A1' & _ & _ & _ & I).
  simpl in A1', I. rewrite A1 in A1'. apply app_inv_head in A1'. subst d1'.
  rewrite N1, andb_true_r in I.
  rewrite strokeEnd_closed_form.
  destruct (points this1) as [|w0 [|w1 [|w2 [|w3 rest]]]]; simpl in L3;
    try discriminate.
  simpl. rewrite A1, <- !app_assoc. eexists. split; [reflexivity|].
  split; [|exact I].
  simpl. rewrite no_arc_app, N1. reflexivity.
Qed.

End StrokeFacts.

Section HostFacts.

Context {F : Type} `{Number F} {G : Geometry (F:=F)}.

Local Open Scope js_scope.

Lemma clear_closed_form (this : Mounted) :
  clear this
  = mkMounted
      (mkSignatureCanvas (props (component this)) (canvasRect (component this))
         [] #0
         ((minWidth (props (component this)) + maxWidth (props (component this))) / #2)
         true
         (effects (component this)
          ++ [ctx_fillStyle (backgroundColor (props (component this)));
              ctx_fillStyle (penColor (props (component this)))])
         (curves (component this)))
      (_mouseButtonDown this) (canvas_width this) (canvas_height this)
      (host_calls this
       ++ [(S (List.length (effects (component this))),
            ctx_clearRect #0 #0 (canvas_width this) (canvas_height this));
           (S (List.length (effects (component this))),
            ctx_fillRect #0 #0 (canvas_width this) (canvas_height this))]).
Proof.
  unfold clear, host_call, set_component, _reset, perform. simpl.
  rewrite <- !app_assoc, length_app, Nat.add_1_r. reflexivity.
Qed.

(** The moves of a gesture, as host operations and as updates. *)
Lemma moves_are_updates (moves : list (F * MouseEvent)) (rest : list HostOp) :
  forall this,
    _mouseButtonDown this = true ->
    host_run (map (fun m => op_mouseMove (fst m) (snd m)) moves ++ rest) this
    = (c <- run (updates (map (fun m => (fst m, pointer (snd m))) moves))
              (component this) ;;
       host_run rest (set_component c this)).
Proof.
  induction moves as [|[now ev] moves IH]; intros this B; simpl.
  - destruct this; reflexivity.
  - unfold _handleMouseMove. rewrite B. simpl.
    destruct (_strokeUpdate now (pointer ev) (component this)) as [c| |];
      simpl; try reflexivity.
    rewrite IH by exact B. simpl.
    destruct (run _ c) as [c'| |]; reflexivity.
Qed.

(** X9.  A gesture with the left button, a press, any moves and the
    release, whatever the flag was before, is the stroke of a begin, the
    updates and the end on the component, and leaves the button flag
    cleared. *)
Theorem gesture_is_a_stroke (now0 : F) (press : MouseEvent)
    (moves : list (F * MouseEvent)) (release : MouseEvent) (this : Mounted) :
  which press = 1%nat ->
  which release = 1%nat ->
  host_run (op_mouseDown now0 press
            :: map (fun m => op_mouseMove (fst m) (snd m)) moves
            ++ [op_mouseUp release]) this
  = (c <- run (call_begin now0 (pointer press)
               :: updates (map (fun m => (fst m, pointer (snd m))) moves)
               ++ [call_end (pointer release)])
            (component this) ;;
     Returns (mkMounted c false (canvas_width this) (canvas_height this)
                (host_calls this))).
Proof.
  intros P R.
  assert (A : forall cs c, run (cs ++ [call_end (pointer release)]) c
                           = (c' <- run cs c ;; Returns (_strokeEnd (pointer release) c'))).
  { induction cs as [|x cs IH]; intros c; simpl; [reflexivity|].
    destruct (handle x c); simpl; auto. }
  cbn [host_run host_step run handle].
  unfold _handleMouseDown. rewrite P.
  cbn [Nat.eqb component set_mouseButtonDown].
  rewrite strokeBegin_closed_form. cbn [bind].
  rewrite moves_are_updates by reflexivity.
  rewrite A. cbn [component set_component].
  destruct (run (updates _) _) as [c| |]; cbn [bind]; try reflexivity.
  cbn [host_run host_step]. unfold _handleMouseUp. rewrite R. reflexivity.
Qed.

(** X10.  While the button is up, moves, releases and presses of other
    buttons change nothing: without a press of the left button the mouse
    leaves the component exactly as it was. *)
Theorem no_left_press_no_change (ops : list HostOp) (this : Mounted) :
  _mouseButtonDown this = false ->
  forallb (fun op => negb (is_left_press op) && negb (is_clear op)) ops = true ->
  host_run ops this = Returns this.
Proof.
  intros B. induction ops as [|op ops IH]; simpl; [reflexivity|].
  intros A. apply andb_prop in A. destruct A as [A1 A2].
  destruct op as [now ev|now ev|ev|]; simpl in *.
  - unfold _handleMouseDown. destruct (which ev =? 1)%nat; [discriminate|].
    simpl. auto.
  - unfold _handleMouseMove. rewrite B. simpl. auto.
  - unfold _handleMouseUp. rewrite B, andb_false_r. simpl. auto.
  - discriminate.
Qed.


Lemma drawing_curve_effects (curve : Bezier) (sw ew : F) (n : nat) :
  forallb is_drawing (curve_effects curve sw ew n) = true.
Proof.
  unfold curve_effects. rewrite !forallb_app. simpl. rewrite andb_true_r.
  apply forallb_forall. intros e I. apply in_flat_map in I.
  destruct I as (i & _ & [<-|[<-|[]]]); reflexivity.
Qed.

Lemma drawing_dot_effects (p : Point (F:=F)) (size : F) :
  forallb is_drawing (dot_effects p size) = true.
Proof. reflexivity. Qed.

(** What a call adds to the log: drawing, but for the fill style and the
    callback of a begin and the callback of an end. *)
Lemma handle_log (c : Call) (this this' : SignatureCanvas) :
  handle c this = Returns this' ->
  exists drawn,
    forallb is_drawing drawn = true
    /\ props this' = props this
    /\ effects this'
       = effects this
         ++ match c with
            | call_begin _ ev =>
                [ctx_fillStyle (penColor (props this)); props_onBegin ev] ++ drawn
            | call_update _ _ => drawn
            | call_end ev => drawn ++ [props_onEnd ev]
            end.
Proof.
  destruct c as [now ev|now ev|ev]; cbn [handle].
  - rewrite strokeBegin_closed_form. intros E. injection E as <-.
    exists []. repeat split; reflexivity.
  - unfold _strokeUpdate.
    pose proof (addPoint_cases now (_createPoint now ev this) this) as C.
    destruct (points this ++ [_createPoint now ev this])
      as [|w0 [|w1 [|w2 [|w3 rest]]]]; rewrite C; clear C.
    1-3: intros E; injection E as <-; exists []; simpl; rewrite app_nil_r;
         repeat split; reflexivity.
    all: rewrite addCurve_closed_form;
         destruct (loop_count _) as [n|]; [|discriminate];
         intros E; injection E as <-; simpl.
    all: eexists; split; [apply drawing_curve_effects|]; split; reflexivity.
  - intros E. injection E as <-. rewrite strokeEnd_closed_form.
    destruct (points this) as [|w0 [|w1 [|w2 rest]]]; simpl.
    1,4: exists []; repeat split; reflexivity.
    all: eexists; split; [apply drawing_dot_effects|]; split; reflexivity.
Qed.

Lemma filter_drawing_onBegin (l : list (Effect (F:=F))) :
  forallb is_drawing l = true -> filter is_onBegin l = [].
Proof.
  induction l as [|e l IH]; simpl; [reflexivity|].
  intros A. apply andb_prop in A. destruct A as [A1 A2].
  destruct e; try discriminate; simpl; auto.
Qed.

Lemma filter_drawing_onEnd (l : list (Effect (F:=F))) :
  forallb is_drawing l = true -> filter is_onEnd l = [].
Proof.
  induction l as [|e l IH]; simpl; [reflexivity|].
  intros A. apply andb_prop in A. destruct A as [A1 A2].
  destruct e; try discriminate; simpl; auto.
Qed.

(** One host operation and the two callbacks. *)
Lemma host_step_callbacks (op : HostOp) (this this' : Mounted) :
  host_step op this = Returns this' ->
  exists delta,
    effects (component this') = effects (component this) ++ delta
    /\ (List.length (filter is_onEnd delta)
        + (if _mouseButtonDown this' then 1 else 0)
        <= List.length (filter is_onBegin delta)
           + (if _mouseButtonDown this then 1 else 0))%nat.
Proof.
  destruct op as [now ev|now ev|ev|]; cbn [host_step].
  - unfold _handleMouseDown. destruct (which ev =? 1)%nat.
    + cbn [component set_mouseButtonDown].
      destruct (_strokeBegin now (pointer ev) (component this)) as [c| |] eqn:E;
        cbn [bind]; try discriminate.
      intros R. injection R as <-.
      destruct (handle_log (call_begin now (pointer ev)) _ _ E) as (dr & D & _ & L).
      eexists. split; [exact L|].
      simpl. rewrite (filter_drawing_onBegin _ D), (filter_drawing_onEnd _ D).
      simpl. destruct (_mouseButtonDown this); lia.
    + intros R. injection R as <-. exists []. rewrite app_nil_r. split; [reflexivity|].
      simpl. lia.
  - unfold _handleMouseMove. destruct (_mouseButtonDown this) eqn:B.
    + destruct (_strokeUpdate now (pointer ev) (component this)) as [c| |] eqn:E;
        cbn [bind]; try discriminate.
      intros R. injection R as <-.
      destruct (handle_log (call_update now (pointer ev)) _ _ E) as (dr & D & _ & L).
      eexists. split; [exact L|].
      rewrite (filter_drawing_onBegin _ D), (filter_drawing_onEnd _ D).
      simpl. rewrite B. lia.
    + intros R. injection R as <-. exists []. rewrite app_nil_r. split; [reflexivity|].
      rewrite B. simpl. lia.
  - unfold _handleMouseUp.
    destruct ((which ev =? 1)%nat && _mouseButtonDown this) eqn:B.
    + intros R. injection R as <-.
      apply andb_prop in B. destruct B as [_ B].
      cbn [component set_component set_mouseButtonDown _mouseButtonDown].
      destruct (handle_log (call_end (pointer ev)) (component this) _ eq_refl)
        as (dr & D & _ & L).
      eexists. split; [exact L|].
      rewrite !filter_app, (filter_drawing_onBegin _ D), (filter_drawing_onEnd _ D).
      rewrite B. simpl. lia.
    + intros R. injection R as <-. exists []. rewrite app_nil_r. split; [reflexivity|].
      simpl. lia.
  - intros R. injection R as <-. rewrite clear_closed_form. simpl.
    eexists. split; [reflexivity|]. simpl. lia.
Qed.

(** X11.  Starting with the button up, whatever mouse events and clears
    follow, the strokes ended never outnumber the strokes begun: there
    are at least as many [onBegin] as [onEnd] notifications, and one
    more while the button is held. *)
Theorem ends_never_outnumber_begins (ops : list HostOp) (this this' : Mounted) :
  _mouseButtonDown this = false ->
  host_run ops this = Returns this' ->
  exists delta,
    effects (component this') = effects (component this) ++ delta
    /\ (List.length (filter is_onEnd delta)
        + (if _mouseButtonDown this' then 1 else 0)
        <= List.length (filter is_onBegin delta))%nat.
Proof.
  intros B R.
  assert (A : forall ops this this',
             host_run ops this = Returns this' ->
             exists delta,
               effects (component this') = effects (component this) ++ delta
               /\ (List.length (filter is_onEnd delta)
                   + (if _mouseButtonDown this' then 1 else 0)
                   <= List.length (filter is_onBegin delta)
                      + (if _mouseButtonDown this then 1 else 0))%nat).
  { clear. induction ops as [|op ops IH]; simpl; intros this this' R.
    - injection R as <-. exists []. rewrite app_nil_r. split; [reflexivity|].
      simpl. lia.
    - destruct (host_step op this) as [mid| |] eqn:S; simpl in R; try discriminate.
      destruct (host_step_callbacks _ _ _ S) as (d1 & E1 & C1).
      destruct (IH _ _ R) as (d2 & E2 & C2).
      exists (d1 ++ d2). rewrite E2, E1, app_assoc. split; [reflexivity|].
      rewrite !filter_app, !length_app. lia. }
  destruct (A _ _ _ R) as (delta & E & C).
  exists delta. split; [exact E|]. rewrite B in C. lia.
Qed.


(** One host operation other than [clear], and [_isEmpty]. *)
Lemma host_step_ink (op : HostOp) (this this' : Mounted) :
  is_clear op = false ->
  host_step op this = Returns this' ->
  exists delta,
    effects (component this') = effects (component this) ++ delta
    /\ isEmpty this' = isEmpty this && no_arc delta.
Proof.
  unfold isEmpty.
  destruct op as [now ev|now ev|ev|]; cbn [host_step]; intros NC;
    [| | |discriminate].
  - unfold _handleMouseDown. destruct (which ev =? 1)%nat.
    + cbn [component set_mouseButtonDown].
      destruct (_strokeBegin now (pointer ev) (component this)) as [c| |] eqn:E;
        cbn [bind]; try discriminate.
      intros R. injection R as <-.
      destruct (handle_delta (call_begin now (pointer ev)) _ _ E)
        as (d & _ & A & _ & _ & _ & I & _).
      exists d. auto.
    + intros R. injection R as <-. exists []. rewrite app_nil_r, andb_true_r. auto.
  - unfold _handleMouseMove. destruct (_mouseButtonDown this).
    + destruct (_strokeUpdate now (pointer ev) (component this)) as [c| |] eqn:E;
        cbn [bind]; try discriminate.
      intros R. injection R as <-.
      destruct (handle_delta (call_update now (pointer ev)) _ _ E)
        as (d & _ & A & _ & _ & _ & I & _).
      exists d. auto.
    + intros R. injection R as <-. exists []. rewrite app_nil_r, andb_true_r. auto.
  - unfold _handleMouseUp. destruct ((which ev =? 1)%nat && _mouseButtonDown this).
    + intros R. injection R as <-.
      destruct (handle_delta (call_end (pointer ev)) (component this) _ eq_refl)
        as (d & _ & A & _ & _ & _ & I & _).
      exists d. auto.
    + intros R. injection R as <-. exists []. rewrite app_nil_r, andb_true_r. auto.
Qed.

Lemma host_run_ink (ops : list HostOp) :
  forall this this',
    forallb (fun op => negb (is_clear op)) ops = true ->
    host_run ops this = Returns this' ->
    exists delta,
      effects (component this') = effects (component this) ++ delta
      /\ isEmpty this' = isEmpty this && no_arc delta.
Proof.
  induction ops as [|op ops IH]; simpl; intros this this' NC R.
  - injection R as <-. exists []. rewrite app_nil_r, andb_true_r. auto.
  - apply andb_prop in NC. destruct NC as [N1 N2].
    destruct (host_step op this) as [mid| |] eqn:S; simpl in R; try discriminate.
    destruct (host_step_ink op _ _ ltac:(destruct (is_clear op); [discriminate|reflexivity]) S)
      as (d1 & E1 & I1).
    destruct (IH _ _ N2 R) as (d2 & E2 & I2).
    exists (d1 ++ d2). rewrite E2, E1, I2, I1, no_arc_app, app_assoc, andb_assoc.
    auto.
Qed.

(** X12.  [clear] empties the window, resets the filter state and sets
    [isEmpty()] to true; from then on, until the next [clear],
    [isEmpty()] is true exactly as long as the mouse has drawn no arc. *)
Theorem isEmpty_until_first_ink (ops : list HostOp) (this this' : Mounted) :
  forallb (fun op => negb (is_clear op)) ops = true ->
  host_run (op_clear :: ops) this = Returns this' ->
  isEmpty (clear this) = true
  /\ points (component (clear this)) = []
  /\ _lastVelocity (component (clear this)) = #0
  /\ exists delta,
       effects (component this') = effects (component (clear this)) ++ delta
       /\ isEmpty this' = no_arc delta.
Proof.
  intros NC R. cbn [host_run host_step bind] in R.
  destruct (host_run_ink _ _ _ NC R) as (delta & E & I).
  rewrite clear_closed_form in *. repeat split. exists delta. auto.
Qed.

(* ------------------------------------------------------------------ *)
(** *** Colours *)

Lemma style_after_app (s : option string) (l l' : list (Effect (F:=F))) :
  style_after s (l ++ l') = style_after (style_after s l) l'.
Proof. apply fold_left_app. Qed.

Lemma fill_styles_app (l l' : list (Effect (F:=F))) :
  forall s,
    fill_styles s (l ++ l') = fill_styles s l ++ fill_styles (style_after s l) l'.
Proof.
  induction l as [|e l IH]; intros s; simpl; [reflexivity|].
  destruct e; simpl; rewrite IH; reflexivity.
Qed.

Lemma drawing_styles (l : list (Effect (F:=F))) (s : option string) :
  forallb is_drawing l = true ->
  style_after s l = s /\ exists k, fill_styles s l = repeat s k.
Proof.
  induction l as [|e l IH]; simpl; intros A; [split; [reflexivity|exists 0%nat; reflexivity]|].
  apply andb_prop in A. destruct A as [A1 A2].
  destruct (IH A2) as (S & k & K).
  destruct e; try discriminate; simpl; (split; [exact S|]).
  1-4: exists k; exact K.
  exists (Datatypes.S k). simpl. rewrite K. reflexivity.
Qed.


Lemma wiped_in_later (color : string) (log more : list (Effect (F:=F)))
    (wipes : list (nat * HostCall)) :
  wiped_in color log wipes -> wiped_in color (log ++ more) wipes.
Proof.
  intros W n px py w h I. destruct (W n px py w h I) as [L S].
  split; [rewrite length_app; lia|].
  rewrite firstn_app. replace (n - List.length log)%nat with 0%nat by lia.
  simpl. rewrite app_nil_r. exact S.
Qed.

Lemma wiped_in_app (color : string) (log : list (Effect (F:=F)))
    (w1 w2 : list (nat * HostCall)) :
  wiped_in color log w1 -> wiped_in color log w2 -> wiped_in color log (w1 ++ w2).
Proof.
  intros A B n px py w h I. apply in_app_or in I.
  destruct I; [eapply A|eapply B]; eauto.
Qed.

(** One host operation and the fill style. *)
Lemma host_step_colours (op : HostOp) (this this' : Mounted) :
  style_after None (effects (component this))
  = Some (penColor (props (component this))) ->
  host_step op this = Returns this' ->
  props (component this') = props (component this)
  /\ exists delta wipes k,
       effects (component this') = effects (component this) ++ delta
       /\ style_after (Some (penColor (props (component this)))) delta
          = Some (penColor (props (component this)))
       /\ fill_styles (Some (penColor (props (component this)))) delta
          = repeat (Some (penColor (props (component this)))) k
       /\ host_calls this' = host_calls this ++ wipes
       /\ wiped_in (backgroundColor (props (component this)))
            (effects (component this')) wipes.
Proof.
  intros S0.
  assert (NoWipe : forall color (log : list (Effect (F:=F))), wiped_in color log [])
    by (intros color log n px py w h []).
  set (pen := penColor (props (component this))) in *.
  assert (Same : Returns this = Returns this' ->
                 props (component this') = props (component this)
                 /\ exists delta wipes k,
                      effects (component this') = effects (component this) ++ delta
                      /\ style_after (Some pen) delta = Some pen
                      /\ fill_styles (Some pen) delta = repeat (Some pen) k
                      /\ host_calls this' = host_calls this ++ wipes
                      /\ wiped_in (backgroundColor (props (component this)))
                           (effects (component this')) wipes).
  { intros R. injection R as <-. split; [reflexivity|].
    exists [], [], 0%nat. rewrite !app_nil_r.
    split; [reflexivity|]. split; [reflexivity|]. split; [reflexivity|].
    split; [reflexivity|apply NoWipe]. }
  destruct op as [now ev|now ev|ev|]; cbn [host_step].
  - unfold _handleMouseDown. destruct (which ev =? 1)%nat; [|exact Same].
    cbn [component set_mouseButtonDown].
    destruct (_strokeBegin now (pointer ev) (component this)) as [c| |] eqn:E;
      cbn [bind]; try discriminate.
    intros R. injection R as <-.
    destruct (handle_log (call_begin now (pointer ev)) _ _ E) as (dr & D & P & L).
    destruct (drawing_styles dr (Some pen) D) as (St & k & K).
    split; [exact P|]. eexists. exists [], k.
    split; [exact L|]. simpl. rewrite app_nil_r. fold pen.
    split; [exact St|]. split; [exact K|]. split; [reflexivity|apply NoWipe].
  - unfold _handleMouseMove. destruct (_mouseButtonDown this); [|exact Same].
    destruct (_strokeUpdate now (pointer ev) (component this)) as [c| |] eqn:E;
      cbn [bind]; try discriminate.
    intros R. injection R as <-.
    destruct (handle_log (call_update now (pointer ev)) _ _ E) as (dr & D & P & L).
    destruct (drawing_styles dr (Some pen) D) as (St & k & K).
    split; [exact P|]. exists dr, [], k.
    split; [exact L|]. simpl. rewrite app_nil_r.
    split; [exact St|]. split; [exact K|]. split; [reflexivity|apply NoWipe].
  - unfold _handleMouseUp.
    destruct ((which ev =? 1)%nat && _mouseButtonDown this); [|exact Same].
    intros R. injection R as <-.
    destruct (handle_log (call_end (pointer ev)) (component this) _ eq_refl)
      as (dr & D & P & L).
    destruct (drawing_styles dr (Some pen) D) as (St & k & K).
    split; [exact P|]. eexists. exists [], k.
    split; [exact L|].
    rewrite style_after_app, fill_styles_app, St, K. simpl.
    rewrite !app_nil_r.
    split; [reflexivity|]. split; [reflexivity|]. split; [reflexivity|apply NoWipe].
  - intros R. injection R as <-. rewrite clear_closed_form. simpl.
    split; [reflexivity|]. eexists. eexists. exists 0%nat.
    split; [reflexivity|]. split; [reflexivity|]. split; [reflexivity|].
    split; [reflexivity|].
    intros n px py w h [I|[I|[]]]; [discriminate|]. injection I as <- _ _ _ _.
    split; [rewrite length_app; simpl; lia|].
    rewrite firstn_app.
    replace (Datatypes.S (List.length (effects (component this)))
             - List.length (effects (component this)))%nat with 1%nat by lia.
    rewrite firstn_all2 by lia. simpl.
    rewrite style_after_app. reflexivity.
Qed.

(** X13.  Let the fill style be the pen colour, as it is after a
    [clear].  Whatever mouse events and clears follow, every path the
    strokes fill is filled while the fill style is [penColor], and every
    [fillRect] of a [clear] is made while it is [backgroundColor]. *)
Theorem ink_in_pen_colour (ops : list HostOp) (this this' : Mounted) :
  style_after None (effects (component this))
  = Some (penColor (props (component this))) ->
  host_run ops this = Returns this' ->
  exists delta wipes k,
    effects (component this') = effects (component this) ++ delta
    /\ fill_styles (Some (penColor (props (component this)))) delta
       = repeat (Some (penColor (props (component this)))) k
    /\ host_calls this' = host_calls this ++ wipes
    /\ wiped_in (backgroundColor (props (component this)))
         (effects (component this')) wipes.
Proof.
  revert this this'.
  assert (A : forall this this',
             style_after None (effects (component this))
             = Some (penColor (props (component this))) ->
             host_run ops this = Returns this' ->
             exists delta wipes k,
               effects (component this') = effects (component this) ++ delta
               /\ style_after (Some (penColor (props (component this)))) delta
                  = Some (penColor (props (component this)))
               /\ fill_styles (Some (penColor (props (component this)))) delta
                  = repeat (Some (penColor (props (component this)))) k
               /\ host_calls this' = host_calls this ++ wipes
               /\ wiped_in (backgroundColor (props (component this)))
                    (effects (component this')) wipes).
  { induction ops as [|op ops IH]; simpl; intros this this' S0 R.
    - injection R as <-. exists [], [], 0%nat. rewrite !app_nil_r.
      split; [reflexivity|]. split; [reflexivity|]. split; [reflexivity|].
      split; [reflexivity|]. intros n px py w h [].
    - destruct (host_step op this) as [mid| |] eqn:St; simpl in R; try discriminate.
      destruct (host_step_colours _ _ _ S0 St)
        as (P & d1 & w1 & k1 & E1 & S1 & F1 & H1 & W1).
      assert (S0' : style_after None (effects (component mid))
                    = Some (penColor (props (component mid)))).
      { rewrite P, E1, style_after_app, S0. exact S1. }
      destruct (IH _ _ S0' R) as (d2 & w2 & k2 & E2 & S2 & F2 & H2 & W2).
      rewrite P in *.
      exists (d1 ++ d2), (w1 ++ w2), (k1 + k2)%nat.
      rewrite E2, E1, H2, H1, !app_assoc.
      split; [reflexivity|].
      split; [rewrite style_after_app, S1; exact S2|].
      split; [rewrite fill_styles_app, S1, F1, F2, repeat_app; reflexivity|].
      split; [reflexivity|].
      apply wiped_in_app.
      + rewrite <- E1. apply wiped_in_later. exact W1.
      + rewrite <- E1, <- E2. exact W2. }
  intros this this' S0 R.
  destruct (A _ _ S0 R) as (delta & wipes & k & E & _ & Fs & Hc & W).
  exists delta, wipes, k. auto.
Qed.

(** X14.  A [clear] while the button is held makes the stroke forget its
    samples: the two moves that follow only refill the window, nothing is
    drawn and the surface stays empty; and a release right after the
    [clear] finds no sample, paints no dot and only notifies [onEnd]. *)
Theorem clear_forgets_the_samples (now1 now2 : F) (move1 move2 release : MouseEvent)
    (this : Mounted) :
  _mouseButtonDown this = true ->
  which release = 1%nat ->
  host_run [op_clear; op_mouseMove now1 move1; op_mouseMove now2 move2] this
  = Returns
      (mkMounted
         (mkSignatureCanvas (props (component this)) (canvasRect (component this))
            [_createPoint now1 (pointer move1) (component this);
             _createPoint now2 (pointer move2) (component this)]
            (_lastVelocity (component (clear this)))
            (_lastWidth (component (clear this)))
            true
            (effects (component (clear this)))
            (curves (component this)))
         true (canvas_width this) (canvas_height this) (host_calls (clear this)))
  /\ host_run [op_clear; op_mouseUp release] this
     = Returns
         (mkMounted
            (mkSignatureCanvas (props (component this)) (canvasRect (component this))
               [] (_lastVelocity (component (clear this)))
               (_lastWidth (component (clear this)))
               true
               (effects (component (clear this)) ++ [props_onEnd (pointer release)])
               (curves (component this)))
            false (canvas_width this) (canvas_height this) (host_calls (clear this))).
Proof.
  intros B R. cbn [host_run host_step bind].
  rewrite clear_closed_form.
  unfold _handleMouseMove, _handleMouseUp. cbn [_mouseButtonDown set_component component].
  rewrite B, R. split; reflexivity.
Qed.

(* ------------------------------------------------------------------ *)
(** *** Listeners *)

Lemma host_calls_host_call (c : HostCall) (this : Mounted (F:=F)) :
  host_calls (host_call c this)
  = host_calls this ++ [(List.length (effects (component this)), c)].
Proof. reflexivity. Qed.

Lemma component_host_call (c : HostCall) (this : Mounted (F:=F)) :
  component (host_call c this) = component this.
Proof. reflexivity. Qed.

(** X15.  Unmounting removes every listener the mouse and touch set-up
    adds, from the same target, for the same event type and with the
    same handler, and removes nothing else: seven listeners, each added
    once and removed once. *)
Theorem unmount_removes_every_listener (this : Mounted (F:=F)) :
  let mounted := _handleTouchEvents (_handleMouseEvents this) in
  exists set_up torn_down,
    host_calls mounted = host_calls this ++ set_up
    /\ host_calls (componentWillUnmount mounted) = host_calls mounted ++ torn_down
    /\ List.length (added set_up) = 7%nat
    /\ NoDup (added set_up)
    /\ NoDup (removed torn_down)
    /\ (forall l, In l (added set_up) <-> In l (removed torn_down))
    /\ removed set_up = []
    /\ added torn_down = [].
Proof.
  intros mounted. unfold mounted, componentWillUnmount, off, _handleTouchEvents,
    _handleMouseEvents. cbv zeta.
  rewrite !host_calls_host_call, !component_host_call.
  cbn [host_calls component set_mouseButtonDown].
  set (n := List.length (effects (component this))).
  exists [(n, addEventListener the_canvas "mousedown" on_handleMouseDown);
          (n, addEventListener the_canvas "mousemove" on_handleMouseMove);
          (n, addEventListener the_document "mouseup" on_handleMouseUp);
          (n, addEventListener the_window "resize" on_checkClearOnResize);
          (n, style_msTouchAction "none");
          (n, addEventListener the_canvas "touchstart" on_handleTouchStart);
          (n, addEventListener the_canvas "touchmove" on_handleTouchMove);
          (n, addEventListener the_document "touchend" on_handleTouchEnd)],
         [(n, removeEventListener the_canvas "mousedown" on_handleMouseDown);
          (n, removeEventListener the_canvas "mousemove" on_handleMouseMove);
          (n, removeEventListener the_document "mouseup" on_handleMouseUp);
          (n, removeEventListener the_canvas "touchstart" on_handleTouchStart);
          (n, removeEventListener the_canvas "touchmove" on_handleTouchMove);
          (n, removeEventListener the_document "touchend" on_handleTouchEnd);
          (n, removeEventListener the_window "resize" on_checkClearOnResize)].
  split; [rewrite <- !app_assoc; reflexivity|].
  split; [rewrite <- !app_assoc; reflexivity|].
  cbn [added removed flat_map snd app List.length].
  split; [reflexivity|].
  split; [apply (NoDup_map_inv snd); simpl;
          repeat constructor; simpl; intuition discriminate|].
  split; [apply (NoDup_map_inv snd); simpl;
          repeat constructor; simpl; intuition discriminate|].
  split; [|split; reflexivity].
  intros l. simpl. tauto.
Qed.

End HostFacts.

Module StrokesR.

Import WidthsR.

Local Open Scope R_scope.












Section WithGeometry.

Context {G : Geometry (F:=R)}.








Hypothesis velocity_not_negative : forall a b, 0 <= Point_velocityFrom a b.





End WithGeometry.







End StrokesR.

(* ================================================================== *)
(** * Runs in binary64 *)
(* ================================================================== *)

Module Witnesses64.

Import Run64 Gestures64.

Local Open Scope float_scope.

(** The stroke of four samples and its end. *)
Lemma isEmpty_tracks_ink_witness :
  exists this',
    run four_samples fresh64 = Returns this'
    /\ exists delta,
         effects this' = effects fresh64 ++ delta
         /\ props this' = props fresh64
         /\ _isEmpty this' = _isEmpty fresh64 && no_arc delta.
Proof.
  eexists. split.
  - vm_compute. reflexivity.
  - refine (isEmpty_tracks_ink four_samples fresh64 _ _).
    vm_compute. reflexivity.
Defined.

(** Four samples: the window holds the last three. *)
Lemma window_holds_last_three_witness :
  exists this1,
    run (call_begin 0 (mkEvent 0 0) :: updates three_moves) fresh64 = Returns this1
    /\ points this1
       = last_three (stroke_samples fresh64 0 (mkEvent 0 0) three_moves).
Proof.
  eexists. split.
  - vm_compute. reflexivity.
  - refine (window_holds_last_three 0 (mkEvent 0 0) three_moves fresh64 _ _).
    vm_compute. reflexivity.
Defined.

(** Four samples: two curves, from the first sample to the second and
    from the second to the third. *)
Lemma curves_join_consecutive_samples_witness :
  exists this1,
    run (call_begin 0 (mkEvent 0 0) :: updates three_moves) fresh64 = Returns this1
    /\ exists emitted,
         curves this1 = curves fresh64 ++ emitted
         /\ map startPoint emitted
            = removelast
                (removelast (stroke_samples fresh64 0 (mkEvent 0 0) three_moves))
         /\ map endPoint emitted
            = tl (removelast (stroke_samples fresh64 0 (mkEvent 0 0) three_moves))
         /\ List.length emitted = (List.length three_moves - 1)%nat.
Proof.
  eexists. split.
  - vm_compute. reflexivity.
  - refine (curves_join_consecutive_samples 0 (mkEvent 0 0) three_moves fresh64 _ _).
    vm_compute. reflexivity.
Defined.

(** A pointer that trembles within a quarter of a unit: two curves,
    none of them drawn, and no dot. *)
Lemma short_curves_leave_no_ink_witness :
  exists this1 emitted,
    run (call_begin 0 (mkEvent 0 0) :: updates tremble) fresh64 = Returns this1
    /\ (2 <= List.length tremble)%nat
    /\ curves this1 = curves fresh64 ++ emitted
    /\ Forall draws_nothing emitted
    /\ exists delta,
         effects (_strokeEnd release this1) = effects fresh64 ++ delta
         /\ no_arc delta = true
         /\ _isEmpty (_strokeEnd release this1) = _isEmpty fresh64.
Proof.
  eexists. eexists.
  split; [vm_compute; reflexivity|].
  split; [simpl; lia|].
  split; [vm_compute; reflexivity|].
  assert (D : forall l : list (Bezier (F:=float)),
             forallb (fun c => match loop_count (Math_floor (Bezier_length c)) with
                               | Some 0%nat => true
                               | _ => false
                               end) l = true ->
             Forall draws_nothing l).
  { intros l A. apply Forall_forall. intros c I.
    pose proof (proj1 (forallb_forall _ l) A c I) as B. cbv beta in B.
    unfold draws_nothing.
    destruct (loop_count (Math_floor (Bezier_length c))) as [[|n]|];
      [reflexivity|discriminate B|discriminate B]. }
  split; [apply D; vm_compute; reflexivity|].
  refine (short_curves_leave_no_ink 0 (mkEvent 0 0) tremble release fresh64 _ _ _ _ _ _).
  - vm_compute. reflexivity.
  - simpl. lia.
  - vm_compute. reflexivity.
  - apply D. vm_compute. reflexivity.
Defined.

(** A drag of four samples on the idle component. *)
Lemma gesture_is_a_stroke_witness :
  which (left_button 0 0) = 1%nat
  /\ which (left_button 0 4) = 1%nat
  /\ host_run drag idle64
     = (c <- run (call_begin 0 (pointer (left_button 0 0))
                  :: updates (map (fun m => (fst m, pointer (snd m))) drag_moves)
                  ++ [call_end (pointer (left_button 0 4))])
               (component idle64) ;;
        Returns (mkMounted c false (canvas_width idle64) (canvas_height idle64)
                   (host_calls idle64))).
Proof.
  split; [reflexivity|]. split; [reflexivity|].
  exact (gesture_is_a_stroke 0 (left_button 0 0) drag_moves (left_button 0 4)
           idle64 eq_refl eq_refl).
Defined.

(** Hovering, a right click and a stray release. *)
Lemma no_left_press_no_change_witness :
  _mouseButtonDown idle64 = false
  /\ forallb (fun op => negb (is_left_press op) && negb (is_clear op)) hover = true
  /\ host_run hover idle64 = Returns idle64.
Proof.
  split; [reflexivity|]. split; [reflexivity|].
  exact (no_left_press_no_change hover idle64 eq_refl eq_refl).
Defined.

(** Two drags with a clear in the second. *)
Lemma ends_never_outnumber_begins_witness :
  _mouseButtonDown idle64 = false
  /\ exists this',
       host_run drag_and_clear idle64 = Returns this'
       /\ exists delta,
            effects (component this') = effects (component idle64) ++ delta
            /\ (List.length (filter is_onEnd delta)
                + (if _mouseButtonDown this' then 1 else 0)
                <= List.length (filter is_onBegin delta))%nat.
Proof.
  split; [reflexivity|]. eexists. split.
  - vm_compute. reflexivity.
  - refine (ends_never_outnumber_begins drag_and_clear idle64 _ eq_refl _).
    vm_compute. reflexivity.
Defined.

(** A clear, then hovering and a drag. *)
Lemma isEmpty_until_first_ink_witness :
  forallb (fun op => negb (is_clear op)) (hover ++ drag) = true
  /\ exists this',
       host_run (op_clear :: hover ++ drag) idle64 = Returns this'
       /\ (isEmpty (clear idle64) = true
           /\ points (component (clear idle64)) = []
           /\ _lastVelocity (component (clear idle64)) = 0
           /\ exists delta,
                effects (component this')
                = effects (component (clear idle64)) ++ delta
                /\ isEmpty this' = no_arc delta).
Proof.
  split; [reflexivity|]. eexists. split.
  - vm_compute. reflexivity.
  - refine (isEmpty_until_first_ink (hover ++ drag) idle64 _ eq_refl _).
    vm_compute. reflexivity.
Defined.

(** Two drags with a clear in the second, from the fresh component,
    whose fill style is the pen colour. *)
Lemma ink_in_pen_colour_witness :
  style_after None (effects (component idle64))
  = Some (penColor (props (component idle64)))
  /\ exists this',
       host_run drag_and_clear idle64 = Returns this'
       /\ exists delta wipes k,
            effects (component this') = effects (component idle64) ++ delta
            /\ fill_styles (Some (penColor (props (component idle64)))) delta
               = repeat (Some (penColor (props (component idle64)))) k
            /\ host_calls this' = host_calls idle64 ++ wipes
            /\ wiped_in (backgroundColor (props (component idle64)))
                 (effects (component this')) wipes.
Proof.
  split; [reflexivity|]. eexists. split.
  - vm_compute. reflexivity.
  - refine (ink_in_pen_colour drag_and_clear idle64 _ eq_refl _).
    vm_compute. reflexivity.
Defined.

(** A clear in the middle of the stroke of two samples. *)
Lemma clear_forgets_the_samples_witness :
  _mouseButtonDown held64 = true
  /\ which (left_button 8 9) = 1%nat
  /\ host_run [op_clear; op_mouseMove 22 (left_button 4 5);
               op_mouseMove 23 (left_button 8 5)] held64
     = Returns
         (mkMounted
            (mkSignatureCanvas (props after_two) (canvasRect after_two)
               [mkPoint 4 5 22; mkPoint 8 5 23] 0 1.5 true
               (effects after_two
                ++ [ctx_fillStyle "rgba(0,0,0,0)"; ctx_fillStyle "black"])
               [])
            true 300 150
            [(4%nat, ctx_clearRect 0 0 300 150); (4%nat, ctx_fillRect 0 0 300 150)])
  /\ host_run [op_clear; op_mouseUp (left_button 8 9)] held64
     = Returns
         (mkMounted
            (mkSignatureCanvas (props after_two) (canvasRect after_two)
               [] 0 1.5 true
               (effects after_two
                ++ [ctx_fillStyle "rgba(0,0,0,0)"; ctx_fillStyle "black";
                    props_onEnd (mkEvent 8 9)])
               [])
            false 300 150
            [(4%nat, ctx_clearRect 0 0 300 150); (4%nat, ctx_fillRect 0 0 300 150)]).
Proof.
  split; [reflexivity|]. split; [reflexivity|].
  exact (clear_forgets_the_samples 22 23 (left_button 4 5) (left_button 8 5)
           (left_button 8 9) held64 eq_refl eq_refl).
Defined.

End Witnesses64.
